(** * Todo application: shallow embedding and verified properties

    The development follows the repository's own split:

    - [JsString], [JsNumber]: the built-ins of the host language the handlers
      call ([trim], [toLowerCase], [includes], [parseFloat], [Math.round]).
    - [Schema]: the [todo] table of [$lib/server/db/schema].
    - [Server]: the form actions of [src/routes/+page.server.ts]
      ([create], [update], [complete], [restore], [delete], [reorder]).
    - [Page]: the derived value [filteredTodos] of the page component,
      over a heap of arrays so that aliasing is visible.

    A string is a sequence of UTF-16 code units below U+0100, one [ascii]
    each: the texts of the Latin-1 range, where a character is one code
    unit and lower-casing goes character by character.  [trim] strips the
    white space of that range (TAB, LF, VT, FF, CR, SP and NBSP) and
    [toLowerCase] maps A-Z and the capital letters U+00C0 to U+00DE.
    Numbers are IEEE binary64 values ([spec_float] at precision 53),
    integers of the table ([sortOrder], time stamps) are [Z]. *)

From Stdlib Require Import ZArith List Bool Ascii String Permutation Sorted Lia.
From Stdlib Require Import Floats.SpecFloat.
From stdpp Require Import base option list strings pretty.

Local Open Scope string_scope.
Local Open Scope Z_scope.

(* ===================================================================== *)
(** ** Strings of the host language *)
(* ===================================================================== *)

Module JsString.

(** The white space and line terminators among the code units: U+0009 to
    U+000D, U+0020 and U+00A0. *)
Definition is_space (c : ascii) : bool :=
  Ascii.is_space c || (N_of_ascii c =? 160)%N.

(** [String.prototype.trimStart]. *)
Fixpoint trimStart (s : string) : string :=
  match s with
  | String c s' => if is_space c then trimStart s' else s
  | EmptyString => EmptyString
  end.

(** [String.prototype.trimEnd]. *)
Fixpoint trimEnd (s : string) : string :=
  match s with
  | String c s' =>
      match trimEnd s' with
      | EmptyString => if is_space c then EmptyString else String c EmptyString
      | t => String c t
      end
  | EmptyString => EmptyString
  end.

(** [String.prototype.trim]. *)
Definition trim (s : string) : string := trimEnd (trimStart s).

(** The lower-case mapping of one code unit: A-Z, and the capital letters
    U+00C0 to U+00DE but for the multiplication sign U+00D7, go 32 up. *)
Definition lower_unit (c : ascii) : ascii :=
  let n := N_of_ascii c in
  if ((65 <=? n) && (n <=? 90) || (192 <=? n) && (n <=? 214)
      || (216 <=? n) && (n <=? 222))%N
  then ascii_of_N (n + 32) else c.

(** [String.prototype.toLowerCase]. *)
Fixpoint toLowerCase (s : string) : string :=
  match s with
  | String c s' => String (lower_unit c) (toLowerCase s')
  | EmptyString => EmptyString
  end.

(** [String.prototype.includes]: [sub] occurs in [s] at some offset. *)
Fixpoint includes (s sub : string) : bool :=
  String.prefix sub s ||
  match s with
  | String _ s' => includes s' sub
  | EmptyString => false
  end.

(** Truthiness of a string value: only the empty string is falsy. *)
Definition truthy (s : string) : bool :=
  match s with EmptyString => false | String _ _ => true end.

End JsString.

(* ===================================================================== *)
(** ** Numbers of the host language (IEEE 754 binary64) *)
(* ===================================================================== *)

Module JsNumber.

Definition number := spec_float.

Definition prec : Z := 53.
Definition emax : Z := 1024.

Definition NaN : number := S754_nan.

(** The number denoted by an integer literal. *)
Definition of_Z (z : Z) : number := binary_normalize prec emax z 0 false.

(** The [*] operator. *)
Definition mul (x y : number) : number := SFmul prec emax x y.

(** *** [parseFloat] *)

Definition digit_of (c : ascii) : option Z :=
  let n := N_of_ascii c in
  if ((48 <=? n) && (n <=? 57))%N then Some (Z.of_N n - 48) else None.

(** Reads the longest run of decimal digits at the head of [s]: the value
    accumulated so far, how many digits were read, and the rest. *)
Fixpoint digits (acc : Z) (count : Z) (s : string) : Z * Z * string :=
  match s with
  | String c s' =>
      match digit_of c with
      | Some d => digits (10 * acc + d) (count + 1) s'
      | None => (acc, count, s)
      end
  | EmptyString => (acc, count, s)
  end.

(** An optional sign at the head of [s]: whether it is [-], and what
    follows it. *)
Definition sign (s : string) : bool * string :=
  match s with
  | String "-"%char t => (true, t)
  | String "+"%char t => (false, t)
  | _ => (false, s)
  end.

(** What follows a point at the head of [s]. *)
Definition after_point (s : string) : option string :=
  match s with
  | String "."%char t => Some t
  | _ => None
  end.

(** The optional exponent part [e], [E] followed by an optional sign and
    at least one digit; anything else leaves the exponent at 0. *)
Definition exponent_part (s : string) : Z :=
  match s with
  | String c s' =>
      if (Ascii.eqb c "e" || Ascii.eqb c "E")%char then
        let '(neg, s'') := sign s' in
        let '(e, n, _) := digits 0 0 s'' in
        if n =? 0 then 0 else if neg then - e else e
      else 0
  | EmptyString => 0
  end.

(** The digits of a literal before its exponent part: the integer they
    write without the point, how many of them stand behind the point, and
    the rest of [s].  A point counts only with a digit on one of its
    sides; [None] when there is no digit to read. *)
Definition mantissa (s : string) : option (Z * Z * string) :=
  let '(i, ni, s1) := digits 0 0 s in
  let '(m, nf, s2) :=
    match after_point s1 with
    | Some t =>
        let '(m, nf, t') := digits i 0 t in
        if (ni =? 0) && (nf =? 0) then (i, 0, s1) else (m, nf, t')
    | None => (i, 0, s1)
    end in
  if (ni =? 0) && (nf =? 0) then None else Some (m, nf, s2).

(** The binary64 value nearest to [(-1)^neg * m * 10^e]. *)
Definition of_decimal (neg : bool) (m : Z) (e : Z) : number :=
  match m with
  | Zpos p =>
      if 0 <=? e
      then binary_normalize prec emax ((if neg then - m else m) * 10 ^ e) 0 false
      else SFdiv prec emax (S754_finite neg p 0)
                           (S754_finite false (Z.to_pos (10 ^ (- e))) 0)
  | _ => S754_zero neg
  end.

(** The value of the longest prefix of [s] that is an unsigned decimal
    literal, under the sign [neg] read before it; [NaN] when no prefix of
    [s] is such a literal. *)
Definition unsigned (neg : bool) (s : string) : number :=
  if String.prefix "Infinity" s then S754_infinity neg
  else
    match mantissa s with
    | Some (m, nf, s2) => of_decimal neg m (exponent_part s2 - nf)
    | None => NaN
    end.

(** [parseFloat]: leading white space is skipped, the longest prefix that
    is a decimal literal is converted, and [NaN] is returned when there is
    no such prefix. *)
Definition parseFloat (input : string) : number :=
  let '(neg, s) := sign (JsString.trimStart input) in
  unsigned neg s.

(** *** [Math.round]

    The integer nearest to [x], ties towards +infinity; [NaN], the
    infinities and the zeros are returned as they are.  A rounded value is
    kept as the integer itself (mantissa with exponent 0), which denotes
    the same number as its normalised binary64 form. *)
Definition Math_round (x : number) : number :=
  match x with
  | S754_finite s m e =>
      if 0 <=? e then x
      else
        let scale := 2 ^ (- e) in
        match (2 * cond_Zopp s (Zpos m) + scale) / (2 * scale) with
        | Z0 => S754_zero s
        | Zpos p => S754_finite false p 0
        | Zneg p => S754_finite true p 0
        end
  | _ => x
  end.

(** *** Classification of values *)




(** The integer a rounded finite value stands for. *)
Definition to_Z (x : number) : option Z :=
  match x with
  | S754_zero _ => Some 0
  | S754_finite s m e =>
      if 0 <=? e then Some (cond_Zopp s (Zpos m * 2 ^ e))
      else if Zpos m mod 2 ^ (- e) =? 0
           then Some (cond_Zopp s (Zpos m / 2 ^ (- e))) else None
  | _ => None
  end.

End JsNumber.

(* ===================================================================== *)
(** ** Ordering of sequences *)
(* ===================================================================== *)

Module Ordering.
Section Sort.
Context {A : Type}.
(** A comparator in the style of the host language: negative when the
    first argument goes first, positive when it goes last. *)
Variable compareFn : A -> A -> Z.

(** [x] is put in front of the first element it does not follow, so an
    element that came earlier stays ahead of its equals. *)
Fixpoint insert_before (x : A) (l : list A) : list A :=
  match l with
  | y :: l' => if compareFn x y <=? 0 then x :: l else y :: insert_before x l'
  | [] => [x]
  end.

(** A stable sort, as [Array.prototype.sort] is required to be. *)
Fixpoint sort (l : list A) : list A :=
  match l with
  | x :: l' => insert_before x (sort l')
  | [] => []
  end.
End Sort.
End Ordering.

(* ===================================================================== *)
(** ** The [todo] table *)
(* ===================================================================== *)

Module Schema.

(** One row of the table.  The two flag columns hold the integers 0 and 1
    ([false] and [true] here); no handler writes another value. *)
Record todo : Type := {
  id : string;
  title : string;
  description : option string;
  notes : option string;
  contractorHired : bool;
  contractorName : option string;
  contractorDetails : option string;
  cost : option JsNumber.number;
  completed : bool;
  sortOrder : Z;
  createdAt : Z;
  updatedAt : Z
}.

(** The table: its rows in insertion order. *)
Definition table := list todo.

End Schema.

(* ===================================================================== *)
(** ** The form actions *)
(* ===================================================================== *)

Module Server.
Import Schema.

(** *** Requests and responses *)

(** A submitted form: its text entries in order. *)
Definition FormData := list (string * string).

(** [FormData.get]: the value of the first entry called [name]. *)
Fixpoint get (formData : FormData) (name : string) : option string :=
  match formData with
  | (k, v) :: rest => if String.eqb k name then Some v else get rest name
  | [] => None
  end.

(** What an action hands back: [{ success: true }], the result of
    [fail(status, { error })], or an exception of the storage layer. *)
Inductive ActionResult : Type :=
| Success
| Fail (status : Z) (error : string)
| Thrown.

(** *** Queries *)

(** [update(todo).set(...).where(...)]: every row the condition selects is
    replaced by its changed version; [set] gives the row with the columns
    of the SET clause at the values the store holds for them. *)
Definition db_update (set : todo -> todo) (where_ : todo -> bool) (db : table) : table :=
  (fun r => if where_ r then set r else r) <$> db.

(** [delete(todo).where(...)]. *)
Definition db_delete (where_ : todo -> bool) (db : table) : table :=
  List.filter (fun r => negb (where_ r)) db.

(** What an INTEGER column holds once a number is bound to it: NaN is kept
    as NULL and a zero loses its sign; every other number [Math.round]
    yields is read back as it was written. *)
Definition bind_integer (x : JsNumber.number) : option JsNumber.number :=
  match x with
  | S754_nan => None
  | S754_zero _ => Some (S754_zero false)
  | _ => Some x
  end.

(** The cost as the store holds it. *)
Definition stored_cost (cost' : option JsNumber.number) : option JsNumber.number :=
  match cost' with
  | Some c => bind_integer c
  | None => None
  end.

(** The row as the store holds it. *)
Definition stored (r : todo) : todo :=
  {| id := id r; title := title r; description := description r; notes := notes r;
     contractorHired := contractorHired r; contractorName := contractorName r;
     contractorDetails := contractorDetails r; cost := stored_cost (cost r);
     completed := completed r; sortOrder := sortOrder r;
     createdAt := createdAt r; updatedAt := updatedAt r |}.

(** [insert(todo).values(...)]: refused when the primary key is taken;
    the values are stored as the columns hold them. *)
Definition db_insert (row : todo) (db : table) : option table :=
  if existsb (fun r => String.eqb (id r) (id row)) db then None
  else Some (db ++ [stored row])%list.

(** [select({ sortOrder }).orderBy(asc(sortOrder))]. *)
Definition select_sortOrder_asc (db : table) : list Z :=
  Ordering.sort (fun a b => a - b) (List.map sortOrder db).

(** [eq(todo.id, id)]. *)
Definition eq_id (i : string) (r : todo) : bool := String.eqb (id r) i.

(** *** Normalisation of the submitted fields *)

(** [formData.get(name)?.toString().trim()]. *)
Definition get_trimmed (formData : FormData) (name : string) : option string :=
  JsString.trim <$> get formData name.

(** [formData.get(name)?.toString().trim() || null]. *)
Definition optional_text (formData : FormData) (name : string) : option string :=
  match get_trimmed formData name with
  | Some s => if JsString.truthy s then Some s else None
  | None => None
  end.

(** [formData.get('contractorHired') === 'on' ? 1 : 0]. *)
Definition checkbox (formData : FormData) (name : string) : bool :=
  match get formData name with
  | Some v => String.eqb v "on"
  | None => false
  end.

(** [costStr ? Math.round(parseFloat(costStr) * 100) : null]. *)
Definition cents (costStr : option string) : option JsNumber.number :=
  match costStr with
  | Some s =>
      if JsString.truthy s
      then Some (JsNumber.Math_round
                   (JsNumber.mul (JsNumber.parseFloat s) (JsNumber.of_Z 100)))
      else None
  | None => None
  end.

Definition optional_cost (formData : FormData) : option JsNumber.number :=
  cents (get_trimmed formData "cost").

(** *** Changes written by the actions *)

Definition set_fields (title' : string) (description' notes' : option string)
    (contractorHired' : bool) (contractorName' contractorDetails' : option string)
    (cost' : option JsNumber.number) (updatedAt' : Z) (r : todo) : todo :=
  {| id := id r; title := title'; description := description'; notes := notes';
     contractorHired := contractorHired'; contractorName := contractorName';
     contractorDetails := contractorDetails'; cost := stored_cost cost';
     completed := completed r; sortOrder := sortOrder r;
     createdAt := createdAt r; updatedAt := updatedAt' |}.

Definition set_completed (completed' : bool) (updatedAt' : Z) (r : todo) : todo :=
  {| id := id r; title := title r; description := description r; notes := notes r;
     contractorHired := contractorHired r; contractorName := contractorName r;
     contractorDetails := contractorDetails r; cost := cost r;
     completed := completed'; sortOrder := sortOrder r;
     createdAt := createdAt r; updatedAt := updatedAt' |}.

Definition set_sortOrder (sortOrder' : Z) (r : todo) : todo :=
  {| id := id r; title := title r; description := description r; notes := notes r;
     contractorHired := contractorHired r; contractorName := contractorName r;
     contractorDetails := contractorDetails r; cost := cost r;
     completed := completed r; sortOrder := sortOrder';
     createdAt := createdAt r; updatedAt := updatedAt r |}.

(** *** The actions

    Each action takes the submitted form and the table and returns its
    response with the table it leaves.  [now] is the reading of
    [Date.now()] during the action and [uuid] the value drawn from
    [crypto.randomUUID()].  An insert draws its two time stamps from the
    default functions of the schema, each of which reads the clock for
    itself: [createdNow] and [updatedNow]. *)

(** The sort order given to a new row, from the first row of the query
    [select_sortOrder_asc] cut by [limit(1)]. *)
Definition nextSortOrder (db : table) : Z :=
  match take 1 (select_sortOrder_asc db) with
  | lastTodo :: _ => lastTodo + 1
  | [] => 0
  end.

Definition create (formData : FormData) (uuid : string) (createdNow updatedNow : Z)
    (db : table)
  : ActionResult * table :=
  match get_trimmed formData "title" with
  | Some (String _ _ as title') =>
      let row :=
        {| id := uuid; title := title';
           description := optional_text formData "description";
           notes := optional_text formData "notes";
           contractorHired := checkbox formData "contractorHired";
           contractorName := optional_text formData "contractorName";
           contractorDetails := optional_text formData "contractorDetails";
           cost := optional_cost formData;
           completed := false;
           sortOrder := nextSortOrder db;
           createdAt := createdNow; updatedAt := updatedNow |} in
      match db_insert row db with
      | Some db' => (Success, db')
      | None => (Thrown, db)
      end
  | _ => (Fail 400 "Title is required", db)
  end.

Definition update (formData : FormData) (now : Z) (db : table)
  : ActionResult * table :=
  match get formData "id" with
  | Some (String _ _ as i) =>
      match get_trimmed formData "title" with
      | Some (String _ _ as title') =>
          (Success,
           db_update
             (set_fields title'
                (optional_text formData "description")
                (optional_text formData "notes")
                (checkbox formData "contractorHired")
                (optional_text formData "contractorName")
                (optional_text formData "contractorDetails")
                (optional_cost formData) now)
             (eq_id i) db)
      | _ => (Fail 400 "Title is required", db)
      end
  | _ => (Fail 400 "Todo ID is required", db)
  end.

Definition complete (formData : FormData) (now : Z) (db : table)
  : ActionResult * table :=
  match get formData "id" with
  | Some (String _ _ as i) => (Success, db_update (set_completed true now) (eq_id i) db)
  | _ => (Fail 400 "Todo ID is required", db)
  end.

Definition restore (formData : FormData) (now : Z) (db : table)
  : ActionResult * table :=
  match get formData "id" with
  | Some (String _ _ as i) => (Success, db_update (set_completed false now) (eq_id i) db)
  | _ => (Fail 400 "Todo ID is required", db)
  end.

Definition delete (formData : FormData) (db : table) : ActionResult * table :=
  match get formData "id" with
  | Some (String _ _ as i) => (Success, db_delete (eq_id i) db)
  | _ => (Fail 400 "Todo ID is required", db)
  end.

(** One element of the submitted order, [{ id, sortOrder }]. *)
Definition OrderEntry := (string * Z)%type.

(** The updates of [order.map(...)], run in the order of the array. *)
Definition apply_order (order : list OrderEntry) (db : table) : table :=
  fold_left (fun db' '(i, sortOrder') => db_update (set_sortOrder sortOrder') (eq_id i) db')
            order db.

Section Reorder.
(** [JSON.parse] on the [order] field, read at the type the handler
    declares for it: [None] when parsing throws, the array of
    [{ id, sortOrder }] entries otherwise. *)
Variable JSON_parse : string -> option (list OrderEntry).

Definition reorder (formData : FormData) (db : table) : ActionResult * table :=
  match get formData "order" with
  | Some (String _ _ as orderJson) =>
      match JSON_parse orderJson with
      | Some order => (Success, apply_order order db)
      | None => (Fail 400 "Invalid order data", db)
      end
  | _ => (Fail 400 "Order data is required", db)
  end.
End Reorder.

End Server.

(* ===================================================================== *)
(** ** The page component *)
(* ===================================================================== *)

Module Page.
Import Schema.

(** *** Arrays

    An array value is a reference into a heap of arrays, so that two
    variables can hold the same array and a change made through one is
    seen through the other. *)

Abbreviation ref := nat (only parsing).
Abbreviation heap := (list (list todo)) (only parsing).

Definition read (h : heap) (a : ref) : list todo := default [] (h !! a).

Definition alloc (h : heap) (v : list todo) : heap * ref :=
  ((h ++ [v])%list, length h).

Definition write (h : heap) (a : ref) (v : list todo) : heap := <[a := v]> h.

(** [Array.prototype.filter]: the kept elements go to a new array. *)
Definition Array_filter (callbackFn : todo -> bool) (a : ref) (h : heap) : heap * ref :=
  alloc h (List.filter callbackFn (read h a)).

(** [Array.prototype.sort]: the array is sorted in place and is itself
    the result. *)
Definition Array_sort (compareFn : todo -> todo -> Z) (a : ref) (h : heap) : heap * ref :=
  (write h a (Ordering.sort compareFn (read h a)), a).

(** *** [filteredTodos] *)

(** [field?.toLowerCase().includes(search)], falsy on an absent field. *)
Definition field_includes (field : option string) (search : string) : bool :=
  match field with
  | Some s => JsString.includes (JsString.toLowerCase s) search
  | None => false
  end.

Definition matches (search : string) (t : todo) : bool :=
  JsString.includes (JsString.toLowerCase (title t)) search
  || field_includes (description t) search
  || field_includes (notes t) search
  || field_includes (contractorName t) search.

Definition by_sortOrder (a b : todo) : Z := sortOrder a - sortOrder b.

(** The derived value: [data_todos] is the array [data.todos], the result
    is the array the derivation evaluates to, with the heap it leaves. *)
Definition filteredTodos (h : heap) (data_todos : ref)
    (searchFilter : string) (showCompleted : bool) : heap * ref :=
  let todos := data_todos in
  let '(h, todos) :=
    if negb showCompleted
    then Array_filter (fun t => negb (completed t)) todos h
    else (h, todos) in
  let '(h, todos) :=
    if JsString.truthy (JsString.trim searchFilter)
    then
      let search := JsString.toLowerCase searchFilter in
      Array_filter (matches search) todos h
    else (h, todos) in
  Array_sort by_sortOrder todos h.

(** What the two filters keep between them. *)
Definition keeps (searchFilter : string) (showCompleted : bool) (t : todo) : bool :=
  (showCompleted || negb (completed t))
  && (if JsString.truthy (JsString.trim searchFilter)
      then matches (JsString.toLowerCase searchFilter) t else true).

(** The elements of the resulting array. *)
Definition filteredTodos_value (records : list todo)
    (searchFilter : string) (showCompleted : bool) : list todo :=
  let '(h, out) := filteredTodos [records] 0%nat searchFilter showCompleted in
  read h out.

End Page.

(* ===================================================================== *)
(** ** The wire format of the order array *)
(* ===================================================================== *)

Module Json.
Import Server.

Definition quote : string := String (ascii_of_N 34) EmptyString.

Definition string_of_Z (z : Z) : string := pretty z.

(** [JSON.stringify] on one [{ id, sortOrder }] object whose [id] needs
    no escaping. *)
Definition stringify_entry (e : OrderEntry) : string :=
  "{" +:+ quote +:+ "id" +:+ quote +:+ ":" +:+ quote +:+ fst e +:+ quote +:+ ","
      +:+ quote +:+ "sortOrder" +:+ quote +:+ ":" +:+ string_of_Z (snd e) +:+ "}".

(** [JSON.stringify(order)], as the drop handler of the page sends it. *)
Definition stringify (order : list OrderEntry) : string :=
  "[" +:+ String.concat "," (List.map stringify_entry order) +:+ "]".

Fixpoint strip_prefix (p s : string) : option string :=
  match p, s with
  | EmptyString, _ => Some s
  | String a p', String b s' => if Ascii.eqb a b then strip_prefix p' s' else None
  | String _ _, EmptyString => None
  end.

Fixpoint until_quote (s : string) : option (string * string) :=
  match s with
  | String c s' =>
      if Ascii.eqb c (ascii_of_N 34) then Some (EmptyString, s')
      else '(a, rest) ← until_quote s'; Some (String c a, rest)
  | EmptyString => None
  end.

Definition parse_integer (s : string) : option (Z * string) :=
  let '(neg, s') :=
    match s with
    | String "-"%char t => (true, t)
    | _ => (false, s)
    end in
  let '(n, count, rest) := JsNumber.digits 0 0 s' in
  if count =? 0 then None else Some (if neg then - n else n, rest).

Fixpoint parse_entries (fuel : nat) (s : string) (acc : list OrderEntry)
  : option (list OrderEntry) :=
  match fuel with
  | O => None
  | S fuel' =>
      s1 ← strip_prefix ("{" +:+ quote +:+ "id" +:+ quote +:+ ":" +:+ quote) s;
      '(i, s2) ← until_quote s1;
      s3 ← strip_prefix ("," +:+ quote +:+ "sortOrder" +:+ quote +:+ ":") s2;
      '(n, s4) ← parse_integer s3;
      s5 ← strip_prefix "}" s4;
      match s5 with
      | String "]"%char EmptyString => Some (List.rev ((i, n) :: acc))
      | String ","%char s6 => parse_entries fuel' s6 ((i, n) :: acc)
      | _ => None
      end
  end.

(** A reader of the texts [stringify] produces: the instance of
    [JSON.parse] the examples run the [reorder] action with. *)
Definition parse (s : string) : option (list OrderEntry) :=
  match s with
  | String "["%char (String "]"%char EmptyString) => Some []
  | String "["%char s' => parse_entries (String.length s) s' []
  | _ => None
  end.

End Json.

(* ===================================================================== *)
(** ** Texts as the specification speaks of them *)
(* ===================================================================== *)

Module Text.

(** The code units that are white space: TAB, LF, VT, FF, CR, SP, NBSP. *)
Definition white_space : list N := [9; 10; 11; 12; 13; 32; 160]%N.

Definition blank_unit (c : ascii) : Prop := In (N_of_ascii c) white_space.

(** A text of white space only. *)
Fixpoint blank (s : string) : Prop :=
  match s with
  | String c s' => blank_unit c /\ blank s'
  | EmptyString => True
  end.

(** [v] is [s] without the white space at its two ends. *)
Definition trimmed_of (s v : string) : Prop :=
  exists pre post,
    s = pre +:+ v +:+ post /\ blank pre /\ blank post
    /\ (forall c t, v = String c t -> ~ blank_unit c)
    /\ (forall t c, v = t +:+ String c EmptyString -> ~ blank_unit c).

(** The capital letters with their small letters: the alphabet, and the
    accented capitals U+00C0 to U+00DE (U+00D7 is the multiplication sign),
    whose small letters lie 32 above. *)
Definition letter_pairs : list (ascii * ascii) :=
  (combine (list_ascii_of_string "ABCDEFGHIJKLMNOPQRSTUVWXYZ")
           (list_ascii_of_string "abcdefghijklmnopqrstuvwxyz")
   ++ List.map (fun n => (ascii_of_N n, ascii_of_N (n + 32)))
        [192; 193; 194; 195; 196; 197; 198; 199; 200; 201; 202; 203; 204; 205; 206;
         207; 208; 209; 210; 211; 212; 213; 214; 216; 217; 218; 219; 220; 221; 222]%N)%list.

(** [a] and [b] are one letter, in either case, or one and the same
    character. *)
Definition same_letter (a b : ascii) : Prop :=
  a = b \/ In (a, b) letter_pairs \/ In (b, a) letter_pairs.

(** [a] and [b] are the same text up to the case of their letters. *)
Fixpoint eq_ignoring_case (a b : string) : Prop :=
  match a, b with
  | EmptyString, EmptyString => True
  | String x a', String y b' => same_letter x y /\ eq_ignoring_case a' b'
  | _, _ => False
  end.

End Text.

(* ===================================================================== *)
(** ** Decimal literals and the numbers they denote *)
(* ===================================================================== *)

Module Decimal.

(** The decimal digits with their values. *)
Definition digits : list (ascii * Z) :=
  combine (list_ascii_of_string "0123456789") [0; 1; 2; 3; 4; 5; 6; 7; 8; 9].

Definition digit (c : ascii) (d : Z) : Prop := In (c, d) digits.

(** [s] consists of decimal digits and [n] is the number they write:
    the first digit counts for the highest power of ten. *)
Fixpoint numeral (s : string) (n : Z) : Prop :=
  match s with
  | String c s' =>
      exists d n', digit c d /\ numeral s' n'
                   /\ n = d * 10 ^ Z.of_nat (String.length s') + n'
  | EmptyString => n = 0
  end.

(** An optional sign. *)
Definition sign (t : string) (neg : bool) : Prop :=
  (t = EmptyString /\ neg = false) \/ (t = "+" /\ neg = false) \/ (t = "-" /\ neg = true).

(** An optional exponent part: [e] or [E], an optional sign and at least
    one digit. *)
Definition exponent (t : string) (x : Z) : Prop :=
  (t = EmptyString /\ x = 0)
  \/ exists mark sgn ds neg n,
       t = mark +:+ sgn +:+ ds /\ (mark = "e" \/ mark = "E") /\ sign sgn neg
       /\ ds <> EmptyString /\ numeral ds n /\ x = (if neg then - n else n).

(** The digits before the exponent part, with or without a point: they
    write [m] with [k] digits of it behind the point.  A point needs a
    digit on one of its sides. *)
Definition mantissa (w : string) (m k : Z) : Prop :=
  exists int point frac i f,
    w = int +:+ point +:+ frac
    /\ numeral int i /\ numeral frac f
    /\ (point = "." \/ point = EmptyString /\ frac = EmptyString)
    /\ (int <> EmptyString \/ frac <> EmptyString)
    /\ m = i * 10 ^ Z.of_nat (String.length frac) + f
    /\ k = Z.of_nat (String.length frac).

(** What a literal denotes: infinity, or [m * 10 ^ e]. *)
Inductive denotation : Type :=
| Infinite
| Finite (m e : Z).

Definition unsigned_literal (u : string) (d : denotation) : Prop :=
  (u = "Infinity" /\ d = Infinite)
  \/ exists w expo m k x,
       u = w +:+ expo /\ mantissa w m k /\ exponent expo x /\ d = Finite m (x - k).

(** A decimal literal with its sign. *)
Definition literal (l : string) (neg : bool) (d : denotation) : Prop :=
  exists sgn u, l = sgn +:+ u /\ sign sgn neg /\ unsigned_literal u d.

Definition is_prefix (l v : string) : Prop := exists rest, v = l +:+ rest.

(** The binary64 value nearest to [(-1)^neg * m * 10^e], for [m] that is
    not negative: by the correctly rounded conversion of an integer, or
    the correctly rounded quotient of two. *)
Definition nearest (neg : bool) (m e : Z) : spec_float :=
  if m =? 0 then S754_zero neg
  else if 0 <=? e
       then binary_normalize 53 1024 (cond_Zopp neg (m * 10 ^ e)) 0 false
       else SFdiv 53 1024 (S754_finite neg (Z.to_pos m) 0)
                          (S754_finite false (Z.to_pos (10 ^ (- e))) 0).

Definition number_of (neg : bool) (d : denotation) : spec_float :=
  match d with
  | Infinite => S754_infinity neg
  | Finite m e => nearest neg m e
  end.

(** The number read from the text [v]: the value of the longest prefix of
    [v] that is a decimal literal, and [NaN] when no prefix is one. *)
Definition reads (v : string) (x : spec_float) : Prop :=
  (exists l neg d,
      is_prefix l v /\ literal l neg d
      /\ (forall l' neg' d', is_prefix l' v -> literal l' neg' d' ->
                             (String.length l' <= String.length l)%nat)
      /\ x = number_of neg d)
  \/ ((forall l neg d, is_prefix l v -> ~ literal l neg d) /\ x = S754_nan).

(** [n] is the integer nearest to [(-1)^s * m * 2^e], the greater of two
    that are equally near. *)
Definition nearest_integer (s : bool) (m : positive) (e : Z) (n : Z) : Prop :=
  (2 * n - 1) * 2 ^ Z.max 0 (- e)
  <= 2 * cond_Zopp s (Zpos m) * 2 ^ Z.max 0 e
  < (2 * n + 1) * 2 ^ Z.max 0 (- e).

(** The number [c] is the integer [n]; a zero has no sign. *)
Definition integer_number (c : spec_float) (n : Z) : Prop :=
  match c with
  | S754_zero s => n = 0 /\ s = false
  | S754_finite s m e => 0 <= e /\ n = cond_Zopp s (Zpos m) * 2 ^ e
  | _ => False
  end.

(** The cents a record holds for the amount [x]: the binary64 product of
    [x] and 100, rounded to the nearest integer; an infinite product is
    kept, and no cents are held when the product is not a number. *)
Definition cents_held (x : spec_float) (held : option spec_float) : Prop :=
  match SFmul 53 1024 x (binary_normalize 53 1024 100 0 false) with
  | S754_nan => held = None
  | S754_infinity s => held = Some (S754_infinity s)
  | S754_zero _ => held = Some (S754_zero false)
  | S754_finite s m e =>
      exists n c, nearest_integer s m e n /\ integer_number c n /\ held = Some c
  end.

End Decimal.

(* ===================================================================== *)
(** ** Runs of the server and the properties stated about them *)
(* ===================================================================== *)

Module Runs.
Import Schema Server.

(** One request to the action surface, with what the environment
    supplies to it. *)
Inductive Action : Type :=
| Create (formData : FormData) (uuid : string) (createdNow updatedNow : Z)
| Update (formData : FormData) (now : Z)
| Complete (formData : FormData) (now : Z)
| Restore (formData : FormData) (now : Z)
| Delete (formData : FormData)
| Reorder (formData : FormData).

Section Run.
Variable JSON_parse : string -> option (list OrderEntry).

Definition run (a : Action) (db : table) : ActionResult * table :=
  match a with
  | Create formData uuid createdNow updatedNow =>
      create formData uuid createdNow updatedNow db
  | Update formData now => update formData now db
  | Complete formData now => complete formData now db
  | Restore formData now => restore formData now db
  | Delete formData => delete formData db
  | Reorder formData => reorder JSON_parse formData db
  end.

(** The table after a sequence of requests. *)
Definition run_all (actions : list Action) (db : table) : table :=
  fold_left (fun db' a => snd (run a db')) actions db.
End Run.

(** Every row that differs from the row at its place before carries the
    time stamp [now]. *)
Definition refreshes (now : Z) (db db' : table) : Prop :=
  forall k r r', db !! k = Some r -> db' !! k = Some r' -> r' <> r -> updatedAt r' = now.

(** [r'] is [r] up to its sort order. *)
Definition same_except_sortOrder (r r' : todo) : Prop :=
  r' = set_sortOrder (sortOrder r') r.

(** [r'] is [r] up to its time stamp of last update. *)
Definition same_except_updatedAt (r r' : todo) : Prop :=
  r' = set_completed (completed r) (updatedAt r') r.



(** The largest sort order of a table that has rows. *)
Definition max_sortOrder (db : table) : option Z :=
  match List.map sortOrder db with
  | x :: l => Some (fold_left Z.max l x)
  | [] => None
  end.

(** The sort order a new row is specified to get. *)
Definition specified_sortOrder (db : table) : Z :=
  match max_sortOrder db with
  | Some m => m + 1
  | None => 0
  end.

(** What is stored for a submitted optional text: nothing when the field
    is missing or blank, and otherwise the text without the white space at
    its ends. *)
Definition stores_text (submitted stored : option string) : Prop :=
  match submitted with
  | Some s =>
      (Text.blank s /\ stored = None)
      \/ (exists v, v <> EmptyString /\ Text.trimmed_of s v /\ stored = Some v)
  | None => stored = None
  end.

(** What is stored for a submitted cost: nothing when the field is missing
    or blank, and otherwise the cents held for the number that is read
    from the text without the white space at its ends. *)
Definition stores_cost (submitted : option string) (stored : option JsNumber.number) : Prop :=
  match submitted with
  | Some s =>
      (Text.blank s /\ stored = None)
      \/ (exists v x, v <> EmptyString /\ Text.trimmed_of s v
                      /\ Decimal.reads v x /\ Decimal.cents_held x stored)
  | None => stored = None
  end.

End Runs.

(* ===================================================================== *)
(** ** The view projection as specified *)
(* ===================================================================== *)

Module View.
Import Schema.

(** [text] occurs in [s] up to case: some part of [s] reads as [text]. *)
Definition contains_ignoring_case (s text : string) : Prop :=
  exists pre mid post, s = pre +:+ mid +:+ post /\ Text.eq_ignoring_case mid text.

(** An optional field contains the text; an absent field never does. *)
Definition field_contains (field : option string) (text : string) : Prop :=
  match field with
  | Some s => contains_ignoring_case s text
  | None => False
  end.

(** The records the projection is specified to show. *)
Definition visible (searchText : string) (showCompleted : bool) (t : todo) : Prop :=
  (completed t = true -> showCompleted = true) /\
  (~ Text.blank searchText ->
     contains_ignoring_case (title t) searchText
     \/ field_contains (description t) searchText
     \/ field_contains (notes t) searchText
     \/ field_contains (contractorName t) searchText).

Definition ascending : todo -> todo -> Prop :=
  fun a b => sortOrder a <= sortOrder b.

End View.

(* ===================================================================== *)
(** ** Sample data *)
(* ===================================================================== *)

Module Sample.
Import Schema.

Definition row (i t : string) (done : bool) (position stamp : Z) : todo :=
  {| id := i; title := t; description := None; notes := None;
     contractorHired := false; contractorName := None; contractorDetails := None;
     cost := None; completed := done; sortOrder := position;
     createdAt := stamp; updatedAt := stamp |}.

Definition sink : todo := row "a" "Fix sink" false 0 10.
Definition wall : todo := row "b" "Paint wall" true 1 11.
Definition roof : todo := row "c" "Mend roof" false 2 12.

(** A table as three creations followed by a drag leave it. *)
Definition three : Schema.table := [sink; wall; roof].

(** A record list that is not in ascending order. *)
Definition unordered : list todo := [roof; sink; wall].

Definition detailed : todo :=
  {| id := "d"; title := "Tile floor"; description := Some "kitchen";
     notes := Some "after plumbing"; contractorHired := true;
     contractorName := Some "Ann"; contractorDetails := Some "call first";
     cost := Some (S754_finite false 2500 0); completed := false; sortOrder := 3;
     createdAt := 13; updatedAt := 13 |}.

End Sample.

(* ===================================================================== *)
(** ** The load function *)
(* ===================================================================== *)

Module Loader.
Import Schema.

(** [db.select().from(todo).orderBy(asc(todo.sortOrder))]: all rows in
    ascending sort order, rows of one sort order in table order. *)
Definition load (db : table) : list todo :=
  Ordering.sort (fun a b => sortOrder a - sortOrder b) db.

(** [x] comes before [y] in [l]. *)
Definition precedes (x y : todo) (l : list todo) : Prop :=
  exists l1 l2 l3, l = (l1 ++ x :: l2 ++ y :: l3)%list.

End Loader.

(* ===================================================================== *)
(** ** Array methods of the drop handler *)
(* ===================================================================== *)

Module JsArray.
Section Methods.
Context {A : Type}.

Fixpoint findIndex_from (predicate : A -> bool) (l : list A) (k : Z) : Z :=
  match l with
  | x :: l' => if predicate x then k else findIndex_from predicate l' (k + 1)
  | [] => -1
  end.

(** [Array.prototype.findIndex]: the index of the first element that
    passes, -1 when none does. *)
Definition findIndex (predicate : A -> bool) (l : list A) : Z :=
  findIndex_from predicate l 0.

(** [Array.prototype.splice(start, deleteCount, ...items)]: the removed
    elements and the array as it is left.  A negative [start] counts from
    the end. *)
Definition splice (l : list A) (start deleteCount : Z) (items : list A)
  : list A * list A :=
  let len := Z.of_nat (length l) in
  let actualStart := if start <? 0 then Z.max (len + start) 0 else Z.min start len in
  let actualDeleteCount := Z.min (Z.max deleteCount 0) (len - actualStart) in
  let k := Z.to_nat actualStart in
  let d := Z.to_nat actualDeleteCount in
  (take d (drop k l), (take k l ++ items ++ drop (k + d) l)%list).

End Methods.
End JsArray.

(* ===================================================================== *)
(** ** The reorder gesture *)
(* ===================================================================== *)

Module Gesture.
Import Schema Server.

(** What a drop does: nothing, a reorder request with the new order, or
    an exception ([t.id] on the hole that moving nothing leaves). *)
Inductive Drop : Type :=
| NoRequest
| Request (order : list OrderEntry)
| TypeError.

(** [todos.map((t, index) => ({ id: t.id, sortOrder: index }))]. *)
Definition numbered (todos : list todo) : list OrderEntry :=
  imap (fun index t => (id t, Z.of_nat index)) todos.

(** [handleDrop]: [filteredTodos] is the visible list at the time of the
    drop, [draggedItem] the item taken up at drag start. *)
Definition handleDrop (filteredTodos : list todo) (draggedItem : option todo)
    (targetTodo : todo) : Drop :=
  match draggedItem with
  | None => NoRequest
  | Some dragged =>
      if String.eqb (id dragged) (id targetTodo) then NoRequest
      else
        let todos := filteredTodos in
        let draggedIndex :=
          JsArray.findIndex (fun t => String.eqb (id t) (id dragged)) todos in
        let targetIndex :=
          JsArray.findIndex (fun t => String.eqb (id t) (id targetTodo)) todos in
        let '(removed, todos) := JsArray.splice todos draggedIndex 1 [] in
        match removed with
        | moved :: _ =>
            let '(_, todos) := JsArray.splice todos targetIndex 0 [moved] in
            Request (numbered todos)
        | [] => TypeError
        end
  end.

(** The form the handler posts to the [reorder] action. *)
Definition reorder_form (order : list OrderEntry) : FormData :=
  [("order", Json.stringify order)].

End Gesture.

(* ===================================================================== *)
(** ** The exported document *)
(* ===================================================================== *)

Module Pdf.
Import Schema.

(** One element of the content array: a styled text or the rule drawn
    under the heading. *)
Inductive Block : Type :=
| Text (text style : string)
| Rule.

(** The style names the document definition declares. *)
Definition styles : list string :=
  ["header"; "statusComplete"; "statusPending"; "subheader"; "body"; "cost"].

(** Truthiness of an optional text and of an optional number. *)
Definition present (field : option string) : option string :=
  match field with
  | Some (String _ _ as s) => Some s
  | _ => None
  end.

Definition nonzero (field : option JsNumber.number) : option JsNumber.number :=
  match field with
  | Some (S754_zero _) | Some S754_nan | None => None
  | Some c => Some c
  end.

(** The [/] operator. *)
Definition div (x y : JsNumber.number) : JsNumber.number :=
  SFdiv JsNumber.prec JsNumber.emax x y.

Section Document.
(** [new Intl.NumberFormat('en-US', { style: 'currency', currency: 'USD' }).format]. *)
Variable Intl_format : JsNumber.number -> string.

Definition formatCurrency (cents : option JsNumber.number) : string :=
  match cents with
  | None => EmptyString
  | Some c => Intl_format (div c (JsNumber.of_Z 100))
  end.

(** The [content] array [exportToPdf] builds for a record. *)
Definition content (t : todo) : list Block :=
  let heading :=
    [ Text (title t) "header";
      Text ("Status: " +:+ (if completed t then "Completed" else "Pending"))
           (if completed t then "statusComplete" else "statusPending");
      Rule ] in
  let description_part :=
    match present (description t) with
    | Some d => [Text "Description" "subheader"; Text d "body"]
    | None => []
    end in
  let notes_part :=
    match present (notes t) with
    | Some n => [Text "Notes" "subheader"; Text n "body"]
    | None => []
    end in
  let contractor_part :=
    if contractorHired t then
      (Text "Contractor Information" "subheader"
       :: match present (contractorName t) with
          | Some n => [Text ("Name: " +:+ n) "body"]
          | None => []
          end
       ++ match present (contractorDetails t) with
          | Some d => [Text ("Details: " +:+ d) "body"]
          | None => []
          end)%list
    else [] in
  let cost_part :=
    match nonzero (cost t) with
    | Some c => [Text "Total Cost" "subheader"; Text (formatCurrency (Some c)) "cost"]
    | None => []
    end in
  (heading ++ description_part ++ notes_part ++ contractor_part ++ cost_part)%list.
End Document.

(** The name of the downloaded file. *)
Definition fileName (t : todo) : string := "todo-" +:+ id t +:+ ".pdf".

(** The record without what it says of a contractor's name and details. *)
Definition without_contractor (t : todo) : todo :=
  {| id := id t; title := title t; description := description t; notes := notes t;
     contractorHired := contractorHired t; contractorName := None;
     contractorDetails := None; cost := cost t; completed := completed t;
     sortOrder := sortOrder t; createdAt := createdAt t; updatedAt := updatedAt t |}.

(** A record that is no longer marked as having a contractor and still
    holds a name and details. *)
Definition left_over : todo :=
  {| id := "e"; title := "Fence"; description := None; notes := None;
     contractorHired := false; contractorName := Some "Ann";
     contractorDetails := Some "call first"; cost := Some (S754_zero false);
     completed := true; sortOrder := 4; createdAt := 14; updatedAt := 15 |}.

Definition style_of (b : Block) : option string :=
  match b with
  | Text _ style => Some style
  | Rule => None
  end.

End Pdf.

(* ===================================================================== *)
(** ** Further properties of tables *)
(* ===================================================================== *)

Module Tables.
Import Schema Server.

(** The sort order the assignments give to the id [i]: that of the last
    assignment naming it. *)
Fixpoint assigned (order : list OrderEntry) (i : string) : option Z :=
  match order with
  | (j, position) :: rest =>
      match assigned rest i with
      | Some p => Some p
      | None => if String.eqb i j then Some position else None
      end
  | [] => None
  end.

(** The row as the assignments leave it. *)
Definition reordered (order : list OrderEntry) (r : todo) : todo :=
  match assigned order (id r) with
  | Some position => set_sortOrder position r
  | None => r
  end.

(** A row as the actions write it: a title that is not empty, and no
    optional text that is present and empty. *)
Definition well_formed (r : todo) : Prop :=
  title r <> EmptyString
  /\ description r <> Some EmptyString
  /\ notes r <> Some EmptyString
  /\ contractorName r <> Some EmptyString
  /\ contractorDetails r <> Some EmptyString.

(** [r'] is [r] up to the fields an edit form submits and the time stamp
    of last update. *)
Definition same_identity (r r' : todo) : Prop :=
  id r' = id r /\ completed r' = completed r /\ sortOrder r' = sortOrder r
  /\ createdAt r' = createdAt r.

End Tables.

(* ===================================================================== *)
(** ** Facts about the stable sort *)
(* ===================================================================== *)

Module OrderingFacts.
Import Ordering.

Section AnyComparator.
Context {A : Type} (compareFn : A -> A -> Z).

Lemma insert_before_perm (x : A) (l : list A) :
  Permutation (insert_before compareFn x l) (x :: l).
Proof.
  induction l as [|y l IH]; simpl.
  - reflexivity.
  - destruct (compareFn x y <=? 0).
    + reflexivity.
    + rewrite IH. apply perm_swap.
Qed.

Lemma sort_perm (l : list A) : Permutation (sort compareFn l) l.
Proof.
  induction l as [|x l IH]; simpl.
  - constructor.
  - rewrite insert_before_perm. now constructor.
Qed.

Lemma sort_length (l : list A) : length (sort compareFn l) = length l.
Proof. apply Permutation_length, sort_perm. Qed.
End AnyComparator.

Section ByKey.
Context {A : Type} (key : A -> Z).

Let compareFn : A -> A -> Z := fun a b => key a - key b.
Let ascending : A -> A -> Prop := fun a b => key a <= key b.

Lemma insert_before_sorted (x : A) (l : list A) :
  StronglySorted ascending l ->
  StronglySorted ascending (insert_before compareFn x l).
Proof.
  induction 1 as [|y l Hl IH Hy]; simpl.
  - repeat constructor.
  - unfold compareFn at 1.
    destruct (Z.leb_spec (key x - key y) 0) as [Hle|Hgt].
    + constructor.
      * now constructor.
      * constructor; [unfold ascending; lia|].
        eapply Forall_impl; [exact Hy|].
        unfold ascending; intros; lia.
    + constructor; [exact IH|].
      rewrite (insert_before_perm compareFn x l).
      constructor; [unfold ascending; lia | exact Hy].
Qed.

Lemma sort_sorted (l : list A) : StronglySorted ascending (sort compareFn l).
Proof.
  induction l as [|x l IH]; simpl.
  - constructor.
  - now apply insert_before_sorted.
Qed.

(** Inserting does not disturb the elements of any one key. *)
Lemma insert_before_stable (k : Z) (x : A) (l : list A) :
  List.filter (fun a => key a =? k) (insert_before compareFn x l)
  = List.filter (fun a => key a =? k) (x :: l).
Proof.
  induction l as [|y l IH]; [reflexivity|].
  cbn [insert_before]. unfold compareFn at 1.
  destruct (Z.leb_spec (key x - key y) 0) as [Hle|Hgt]; [reflexivity|].
  cbn [List.filter] in *. rewrite IH.
  destruct (Z.eqb_spec (key x) k) as [Hx|Hx]; [|reflexivity].
  destruct (Z.eqb_spec (key y) k) as [Hy|Hy]; [lia|reflexivity].
Qed.

Lemma sort_stable (k : Z) (l : list A) :
  List.filter (fun a => key a =? k) (sort compareFn l)
  = List.filter (fun a => key a =? k) l.
Proof.
  induction l as [|x l IH]; [reflexivity|].
  cbn [sort]. rewrite insert_before_stable. cbn [List.filter].
  now rewrite IH.
Qed.

(** A sequence that is in order already is left as it is. *)
Lemma sort_sorted_id (l : list A) :
  StronglySorted ascending l -> sort compareFn l = l.
Proof.
  induction 1 as [|x l Hl IH Hx]; [reflexivity|].
  cbn [sort]. rewrite IH.
  destruct Hx as [|y l' Hxy _]; [reflexivity|].
  cbn [insert_before]. unfold compareFn at 1.
  destruct (Z.leb_spec (key x - key y) 0); [reflexivity|].
  unfold ascending in Hxy; lia.
Qed.

(** The first element of the sorted sequence is a least element. *)
Lemma sort_head_least (l : list A) (m : A) (rest : list A) :
  sort compareFn l = m :: rest ->
  In m l /\ Forall (fun y => key m <= key y) l.
Proof.
  intros Hs.
  pose proof (sort_perm compareFn l) as Hp.
  pose proof (sort_sorted l) as Hsorted.
  rewrite Hs in Hp, Hsorted.
  split.
  - eapply Permutation_in; [exact Hp|]. now left.
  - eapply Permutation_Forall; [exact Hp|].
    inversion Hsorted as [|? ? _ Hall]; subst.
    constructor; [lia | exact Hall].
Qed.
End ByKey.

End OrderingFacts.

(* ===================================================================== *)
(** ** Facts about strings *)
(* ===================================================================== *)

Module StringFacts.
Import JsString.

Lemma append_cons (c : ascii) (s t : string) :
  String c s +:+ t = String c (s +:+ t).
Proof. reflexivity. Qed.

Lemma append_nil (t : string) : EmptyString +:+ t = t.
Proof. reflexivity. Qed.

Lemma truthy_iff (s : string) : truthy s = true <-> s <> EmptyString.
Proof. destruct s; simpl; split; congruence. Qed.

Lemma prefix_iff (sub s : string) :
  String.prefix sub s = true <-> exists post, s = sub +:+ post.
Proof.
  revert s. induction sub as [|a sub IH]; intros s.
  - destruct s; simpl; split; eauto.
  - destruct s as [|b s]; simpl.
    + split; [discriminate|]. intros [post H]. discriminate H.
    + destruct (ascii_dec a b) as [->|Hab].
      * rewrite IH. split; intros [post H]; exists post.
        -- rewrite append_cons. now f_equal.
        -- rewrite append_cons in H. now injection H.
      * split; [discriminate|]. intros [post H].
        rewrite append_cons in H. injection H as H1 _. congruence.
Qed.




(** *** White space *)

Lemma is_space_iff (c : ascii) : is_space c = true <-> Text.blank_unit c.
Proof.
  unfold Text.blank_unit, Text.white_space.
  assert (is_space c
          = existsb (N.eqb (N_of_ascii c)) [9; 10; 11; 12; 13; 32; 160]%N) as ->.
  { destruct c as [[] [] [] [] [] [] [] []]; reflexivity. }
  rewrite existsb_exists. split.
  - intros (n & Hn & Heq). apply N.eqb_eq in Heq. now subst.
  - intros Hin. eexists. split; [exact Hin | apply N.eqb_refl].
Qed.

Lemma is_space_false (c : ascii) : is_space c = false -> ~ Text.blank_unit c.
Proof. intros Hc Hb. apply is_space_iff in Hb. congruence. Qed.

Lemma blank_app (a b : string) : Text.blank (a +:+ b) <-> Text.blank a /\ Text.blank b.
Proof.
  induction a as [|c a IH]; [simpl; tauto|].
  rewrite append_cons. simpl. rewrite IH. tauto.
Qed.

Lemma append_nil_r (s : string) : s +:+ EmptyString = s.
Proof. induction s as [|c s IH]; [reflexivity|]. rewrite append_cons. now f_equal. Qed.

Lemma append_assoc (a b c : string) : (a +:+ b) +:+ c = a +:+ (b +:+ c).
Proof.
  induction a as [|x a IH]; [reflexivity|]. rewrite !append_cons. now f_equal.
Qed.

Lemma trimStart_spec (s : string) :
  exists pre, s = pre +:+ trimStart s /\ Text.blank pre
              /\ (forall c t, trimStart s = String c t -> ~ Text.blank_unit c).
Proof.
  induction s as [|c s (pre & Hs & Hpre & Hhead)].
  - exists EmptyString. repeat split. discriminate.
  - cbn [trimStart]. destruct (is_space c) eqn:Hc.
    + exists (String c pre). rewrite append_cons, <- Hs. repeat split; auto.
      now apply is_space_iff.
    + exists EmptyString. repeat split. intros c' t [= <- _].
      now apply is_space_false.
Qed.

Lemma trimEnd_spec (s : string) :
  exists post, s = trimEnd s +:+ post /\ Text.blank post
               /\ (forall t c, trimEnd s = t +:+ String c EmptyString ->
                               ~ Text.blank_unit c).
Proof.
  induction s as [|c s (post & Hs & Hpost & Hlast)].
  - exists EmptyString. split; [reflexivity|]. split; [exact I|].
    intros [|? ?] c; discriminate.
  - cbn [trimEnd]. destruct (trimEnd s) as [|a t0] eqn:Hend.
    + rewrite append_nil in Hs. subst s. destruct (is_space c) eqn:Hc.
      * exists (String c post). split; [reflexivity|]. split.
        -- split; [now apply is_space_iff | exact Hpost].
        -- intros [|? ?] c'; discriminate.
      * exists post. split; [reflexivity|]. split; [exact Hpost|].
        intros [|x t] c'.
        -- rewrite append_nil. intros [= <-]. now apply is_space_false.
        -- rewrite append_cons. intros [= _ H]. destruct t; discriminate H.
    + exists post. split; [now rewrite append_cons, <- Hs|]. split; [exact Hpost|].
      intros [|x t] c'.
      * rewrite append_nil. discriminate.
      * rewrite append_cons. intros [= _ H]. now apply (Hlast t c').
Qed.

Lemma trim_spec (s : string) : Text.trimmed_of s (trim s).
Proof.
  unfold trim, Text.trimmed_of.
  destruct (trimStart_spec s) as (pre & Hs & Hpre & Hhead).
  destruct (trimEnd_spec (trimStart s)) as (post & Hu & Hpost & Hlast).
  exists pre, post. repeat split; auto.
  - now rewrite <- Hu.
  - intros c t Hv. apply (Hhead c (t +:+ post)).
    now rewrite Hu at 1; rewrite Hv, append_cons.
Qed.

Lemma trimStart_blank (s : string) : Text.blank s -> trimStart s = EmptyString.
Proof.
  induction s as [|c s IH]; [reflexivity|]. intros [Hc Hs]. cbn [trimStart].
  apply is_space_iff in Hc. rewrite Hc. now apply IH.
Qed.

Lemma trim_blank (s : string) : trim s = EmptyString <-> Text.blank s.
Proof.
  split.
  - intros Hv. destruct (trim_spec s) as (pre & post & Hs & Hpre & Hpost & _).
    rewrite Hv, append_nil in Hs. rewrite Hs. now apply blank_app.
  - intros Hs. unfold trim. now rewrite trimStart_blank.
Qed.

Lemma trimStart_app_blank (pre s : string) :
  Text.blank pre -> trimStart (pre +:+ s) = trimStart s.
Proof.
  induction pre as [|c pre IH]; [reflexivity|]. intros [Hc Hpre].
  rewrite append_cons. cbn [trimStart]. apply is_space_iff in Hc. rewrite Hc. now apply IH.
Qed.

Lemma trimEnd_blank (s : string) : Text.blank s -> trimEnd s = EmptyString.
Proof.
  induction s as [|c s IH]; [reflexivity|]. intros [Hc Hs]. cbn [trimEnd].
  rewrite (IH Hs). apply is_space_iff in Hc. now rewrite Hc.
Qed.

Lemma trimEnd_app_blank (s post : string) :
  Text.blank post -> trimEnd (s +:+ post) = trimEnd s.
Proof.
  intros Hpost. induction s as [|c s IH].
  - rewrite append_nil. now apply trimEnd_blank.
  - rewrite append_cons. cbn [trimEnd]. now rewrite IH.
Qed.

Lemma trimEnd_last (v : string) :
  (forall t c, v = t +:+ String c EmptyString -> ~ Text.blank_unit c) -> trimEnd v = v.
Proof.
  induction v as [|c v IH]; [reflexivity|]. intros Hlast. cbn [trimEnd].
  rewrite IH.
  - destruct v as [|a v]; [|reflexivity].
    destruct (is_space c) eqn:Hc; [|reflexivity].
    apply is_space_iff in Hc. now destruct (Hlast EmptyString c).
  - intros t c' ->. apply (Hlast (String c t) c'). now rewrite append_cons.
Qed.

(** The text without the white space at its ends is the one [trim]
    returns. *)
Lemma trimmed_of_trim (s v : string) : Text.trimmed_of s v -> v = trim s.
Proof.
  intros (pre & post & -> & Hpre & Hpost & Hhead & Hlast). unfold trim.
  rewrite trimStart_app_blank by exact Hpre.
  destruct v as [|c v].
  - rewrite append_nil, trimStart_blank by exact Hpost. reflexivity.
  - rewrite append_cons. cbn [trimStart].
    destruct (is_space c) eqn:Hc.
    + apply is_space_iff in Hc. now destruct (Hhead c v).
    + rewrite <- append_cons, trimEnd_app_blank by exact Hpost.
      symmetry. now apply trimEnd_last.
Qed.

(** *** Letters and their case *)






End StringFacts.

(* ===================================================================== *)
(** ** Values of the number built-ins *)
(* ===================================================================== *)

Module NumberFacts.
Import JsNumber.

(** One tenth is read as the nearest binary64 value,
    [0x1.999999999999ap-4]. *)
Example parseFloat_tenth :
  parseFloat "0.1" = S754_finite false 7205759403792794 (-56).
Proof. reflexivity. Qed.

Example parseFloat_prefix :
  parseFloat "12abc" = parseFloat "12"
  /\ parseFloat ".5e1x" = parseFloat "5"
  /\ parseFloat "1e" = parseFloat "1".
Proof. repeat split. Qed.

Example parseFloat_no_number :
  parseFloat "abc" = NaN /\ parseFloat "." = NaN /\ parseFloat "-" = NaN
  /\ parseFloat EmptyString = NaN.
Proof. repeat split. Qed.

Example parseFloat_out_of_range :
  parseFloat "1e400" = S754_infinity false
  /\ parseFloat "-Infinity" = S754_infinity true
  /\ parseFloat "1e-400" = S754_zero false.
Proof. repeat split. Qed.

(** Halves go up, and what rounds to zero from below keeps its sign. *)
Example Math_round_halves :
  Math_round (parseFloat "2.5") = S754_finite false 3 0
  /\ Math_round (parseFloat "-2.5") = S754_finite true 2 0
  /\ Math_round (parseFloat "-0.5") = S754_zero true
  /\ Math_round (parseFloat "0.49") = S754_zero false.
Proof. repeat split. Qed.

(** The product is rounded to binary64 before [Math.round] sees it:
    1.005 * 100 is 100.49999999999999. *)
Example product_is_rounded_first :
  to_Z (Math_round (mul (parseFloat "1.005") (of_Z 100))) = Some 100
  /\ to_Z (Math_round (mul (parseFloat "12.5") (of_Z 100))) = Some 1250.
Proof. repeat split. Qed.

End NumberFacts.

(* ===================================================================== *)
(** ** The decimal literal read by [parseFloat] *)
(* ===================================================================== *)

Module DecimalFacts.
Import JsNumber.

Lemma length_append (a b : string) :
  String.length (a +:+ b) = (String.length a + String.length b)%nat.
Proof. induction a as [|c a IH]; [reflexivity|]. rewrite StringFacts.append_cons. simpl. now f_equal. Qed.

Lemma digit_of_iff (c : ascii) (d : Z) : digit_of c = Some d <-> Decimal.digit c d.
Proof.
  unfold Decimal.digit.
  destruct c as [[] [] [] [] [] [] [] []]; vm_compute; split;
    try discriminate; try (intros [= <-]; tauto);
    intros H; repeat (destruct H as [H|H]; [try discriminate H; now injection H as <-|]);
    contradiction.
Qed.

Lemma not_digit (c : ascii) (d : Z) :
  In c (list_ascii_of_string ".eE+-I") -> ~ Decimal.digit c d.
Proof.
  intros Hc Hd. apply digit_of_iff in Hd.
  repeat (destruct Hc as [<-|Hc]; [discriminate Hd|]). contradiction.
Qed.

Lemma numeral_head (c : ascii) (s : string) (n : Z) :
  Decimal.numeral (String c s) n -> exists d, Decimal.digit c d.
Proof. intros (d & n' & Hd & _). now exists d. Qed.

Lemma numeral_tail (c : ascii) (s : string) (n : Z) :
  Decimal.numeral (String c s) n -> exists n', Decimal.numeral s n'.
Proof. intros (d & n' & _ & Hn & _). now exists n'. Qed.

Lemma digit_nonneg (c : ascii) (d : Z) : Decimal.digit c d -> 0 <= d.
Proof.
  unfold Decimal.digit. intros H.
  repeat (destruct H as [H|H]; [injection H as _ <-; lia|]). contradiction.
Qed.

Lemma numeral_nonneg (s : string) (n : Z) : Decimal.numeral s n -> 0 <= n.
Proof.
  revert n. induction s as [|c s IH]; simpl; intros n.
  - lia.
  - intros (d & n' & Hd & Hn & ->). apply digit_nonneg in Hd. apply IH in Hn. nia.
Qed.

Lemma numeral_app (a b : string) (na nb : Z) :
  Decimal.numeral a na -> Decimal.numeral b nb ->
  Decimal.numeral (a +:+ b) (na * 10 ^ Z.of_nat (String.length b) + nb).
Proof.
  revert na. induction a as [|c a IH]; intros na Ha Hb.
  - simpl in Ha. subst na. now rewrite StringFacts.append_nil.
  - destruct Ha as (d & n' & Hd & Hn & ->). rewrite StringFacts.append_cons.
    exists d, (n' * 10 ^ Z.of_nat (String.length b) + nb).
    split; [exact Hd|]. split; [now apply IH|].
    rewrite length_append, Nat2Z.inj_add, Z.pow_add_r by lia. ring.
Qed.

(** [digits] reads the longest run of digits at the head of the text. *)
Lemma digits_run (s : string) (acc count : Z) :
  exists ds n rest,
    s = ds +:+ rest /\ Decimal.numeral ds n
    /\ (forall c t d, rest = String c t -> ~ Decimal.digit c d)
    /\ digits acc count s
       = (acc * 10 ^ Z.of_nat (String.length ds) + n,
          count + Z.of_nat (String.length ds), rest).
Proof.
  revert acc count. induction s as [|a s IH]; intros acc count.
  - exists EmptyString, 0, EmptyString. repeat split; [discriminate|].
    simpl. repeat f_equal; lia.
  - cbn [digits]. destruct (digit_of a) as [d|] eqn:Hd.
    + destruct (IH (10 * acc + d) (count + 1)) as (ds & n & rest & -> & Hn & Hrest & ->).
      exists (String a ds), (d * 10 ^ Z.of_nat (String.length ds) + n), rest.
      split; [reflexivity|]. split.
      { exists d, n. split; [now apply digit_of_iff | now split]. }
      split; [exact Hrest|].
      cbn [String.length]. rewrite Nat2Z.inj_succ, Z.pow_succ_r by lia.
      f_equal. f_equal; [ring | lia].
    + exists EmptyString, 0, (String a s). repeat split.
      * intros c t d' [= <- _] Hc. apply digit_of_iff in Hc. congruence.
      * simpl. repeat f_equal; lia.
Qed.

(** A run of digits at the head of a text is the head of the longest. *)
Lemma run_prefix (ds' ds rest rest' : string) (n n' : Z) :
  ds +:+ rest = ds' +:+ rest' ->
  Decimal.numeral ds n ->
  (forall c t d, rest = String c t -> ~ Decimal.digit c d) ->
  Decimal.numeral ds' n' ->
  exists more, ds = ds' +:+ more /\ rest' = more +:+ rest.
Proof.
  revert ds n n'. induction ds' as [|c ds' IH]; intros ds n n' Heq Hn Hrest Hn'.
  - exists ds. now split.
  - destruct ds as [|a ds].
    + rewrite StringFacts.append_nil, StringFacts.append_cons in Heq.
      destruct (numeral_head _ _ _ Hn') as [d Hd]. now destruct (Hrest c _ d Heq).
    + rewrite !StringFacts.append_cons in Heq. injection Heq as -> Heq.
      destruct (numeral_tail _ _ _ Hn) as [m Hm], (numeral_tail _ _ _ Hn') as [m' Hm'].
      destruct (IH ds m m' Heq Hm Hrest Hm') as (more & -> & ->).
      now exists more.
Qed.

(** *** Signs, points and exponent parts *)

Lemma sign_cases (s : string) :
  (exists t, s = String "-" t /\ sign s = (true, t))
  \/ (exists t, s = String "+" t /\ sign s = (false, t))
  \/ ((forall t, s <> String "-" t) /\ (forall t, s <> String "+" t)
      /\ sign s = (false, s)).
Proof.
  destruct s as [|c t].
  - right; right. repeat split; discriminate.
  - destruct c as [[] [] [] [] [] [] [] []];
      first [ left; eexists; split; reflexivity
            | right; left; eexists; split; reflexivity
            | right; right; repeat split; discriminate ].
Qed.

Lemma after_point_cases (s : string) :
  (exists t, s = String "." t /\ after_point s = Some t)
  \/ ((forall t, s <> String "." t) /\ after_point s = None).
Proof.
  destruct s as [|c t].
  - right. split; [discriminate | reflexivity].
  - destruct c as [[] [] [] [] [] [] [] []];
      first [ left; eexists; split; reflexivity
            | right; split; [discriminate | reflexivity] ].
Qed.

Lemma sign_split (s : string) :
  exists sgn, s = sgn +:+ (sign s).2 /\ Decimal.sign sgn (sign s).1.
Proof.
  unfold Decimal.sign.
  destruct (sign_cases s) as [(t & -> & ->)|[(t & -> & ->)|(_ & _ & ->)]].
  - exists "-". auto.
  - exists "+". auto.
  - exists EmptyString. auto.
Qed.

(** The sign before a text that starts with no sign is the sign read. *)
Lemma sign_unique (s sgn body : string) (neg : bool) (h : ascii) (t : string) :
  s = sgn +:+ body -> Decimal.sign sgn neg -> body = String h t ->
  h <> "+"%char -> h <> "-"%char ->
  sign s = (neg, body).
Proof.
  intros -> [[-> ->]|[[-> ->]|[-> ->]]] -> Hplus Hminus; [|reflexivity..].
  rewrite StringFacts.append_nil.
  destruct (sign_cases (String h t)) as [(t' & [= ->] & _)|[(t' & [= ->] & _)|(_ & _ & ->)]];
    congruence.
Qed.

Lemma numeral_head_no_sign (ds : string) (n : Z) :
  ds <> EmptyString -> Decimal.numeral ds n ->
  exists h t, ds = String h t /\ h <> "+"%char /\ h <> "-"%char
              /\ h <> "."%char /\ h <> "e"%char /\ h <> "E"%char /\ h <> "I"%char.
Proof.
  destruct ds as [|h t]; [congruence|]. intros _ Hn.
  destruct (numeral_head _ _ _ Hn) as [d Hd]. exists h, t.
  repeat split; try reflexivity; intros ->; revert Hd; apply not_digit; simpl; tauto.
Qed.

Lemma exponent_part_spec (s2 : string) :
  exists expo rest,
    s2 = expo +:+ rest /\ Decimal.exponent expo (exponent_part s2)
    /\ forall expo' x' rest', s2 = expo' +:+ rest' -> Decimal.exponent expo' x' ->
         (String.length expo' <= String.length expo)%nat.
Proof.
  destruct s2 as [|c s'].
  - exists EmptyString, EmptyString. split; [reflexivity|]. split; [now left|].
    intros [|? ?] x' rest' H _; [simpl; lia | discriminate H].
  - cbn [exponent_part].
    destruct (Ascii.eqb c "e" || Ascii.eqb c "E")%char eqn:Hmark.
    + assert (String c EmptyString = "e" \/ String c EmptyString = "E") as Hc.
      { apply orb_true_iff in Hmark as [H|H]; apply Ascii.eqb_eq in H; subst; auto. }
      destruct (sign_split s') as (sgn & Hs' & Hsgn).
      destruct (sign s') as [neg body] eqn:Hsign. cbn [fst snd] in Hs', Hsgn.
      destruct (digits_run body 0 0) as (ds & n & rest & Hbody & Hn & Hrest & ->).
      assert (forall expo' x' rest',
                 String c s' = expo' +:+ rest' -> Decimal.exponent expo' x' ->
                 expo' = EmptyString
                 \/ exists ds' more, ds = ds' +:+ more /\ ds' <> EmptyString
                      /\ String.length expo' = S (String.length sgn + String.length ds'))
        as Hmax.
      { intros expo' x' rest' Heq [[-> _]|(mark & sgn' & ds' & neg' & n' & -> & Hm & Hsgn' & Hne & Hn' & _)];
          [now left|right].
        destruct (numeral_head_no_sign ds' n' Hne Hn') as (h & t & Hds' & Hp & Hm' & _).
        assert (s' = sgn' +:+ ds' +:+ rest') as Hs''.
        { destruct Hm as [-> | ->]; rewrite !StringFacts.append_cons in Heq;
            injection Heq as _ Heq; rewrite StringFacts.append_nil in Heq;
            now rewrite Heq, !StringFacts.append_assoc. }
        assert (sign s' = (neg', ds' +:+ rest')) as Hsign'.
        { apply (sign_unique s' sgn' _ neg' h (t +:+ rest') Hs'' Hsgn');
            [now rewrite Hds', StringFacts.append_cons | assumption..]. }
        rewrite Hsign in Hsign'. injection Hsign' as -> Hbody'.
        rewrite Hbody in Hbody'.
        destruct (run_prefix ds' ds rest rest' n n' Hbody' Hn Hrest Hn') as (more & -> & _).
        exists ds', more. split; [reflexivity|]. split; [exact Hne|].
        pose proof (f_equal String.length Hs'') as Hl1.
        pose proof (f_equal String.length Hs') as Hl2.
        rewrite !length_append in Hl1. rewrite Hbody, Hbody', !length_append in Hl2.
        destruct Hm as [-> | ->]; rewrite StringFacts.append_cons; simpl;
          rewrite !length_append; simpl; lia. }
      destruct ds as [|d0 ds].
      * exists EmptyString, (String c s'). split; [reflexivity|]. split; [now left|].
        intros expo' x' rest' Heq Hexp.
        destruct (Hmax expo' x' rest' Heq Hexp) as [->|(ds' & more & Hds & Hne & _)];
          [simpl; lia|].
        destruct ds'; [congruence | discriminate Hds].
      * exists (String c (sgn +:+ String d0 ds)), rest. split.
        { rewrite StringFacts.append_cons, StringFacts.append_assoc, <- Hbody, <- Hs'.
          reflexivity. }
        split.
        { right. exists (String c EmptyString), sgn, (String d0 ds), neg, n.
          split; [reflexivity|]. split; [destruct Hc; auto|]. split; [exact Hsgn|].
          split; [discriminate|]. split; [exact Hn|].
          cbn [String.length]. rewrite Nat2Z.inj_succ.
          destruct (Z.eqb_spec (0 + Z.succ (Z.of_nat (String.length ds))) 0) as [Hz|_];
            [lia|].
          destruct neg; lia. }
        intros expo' x' rest' Heq Hexp.
        destruct (Hmax expo' x' rest' Heq Hexp) as [->|(ds' & more & Hds & Hne & Hlen)];
          [simpl; lia|].
        rewrite Hlen. pose proof (f_equal String.length Hds) as Hl.
        rewrite length_append in Hl. simpl. rewrite length_append. lia.
    + exists EmptyString, (String c s'). split; [reflexivity|]. split; [now left|].
      intros expo' x' rest' Heq [[-> _]|(mark & sgn' & ds' & neg' & n' & -> & Hm & _)];
        [simpl; lia|].
      destruct Hm as [-> | ->]; rewrite StringFacts.append_cons in Heq;
        injection Heq as -> _; discriminate Hmark.
Qed.

(** *** The digits before the exponent part *)

Lemma numeral_suffix (a b : string) (n : Z) :
  Decimal.numeral (a +:+ b) n -> exists nb, Decimal.numeral b nb.
Proof.
  revert n. induction a as [|c a IH]; intros n H.
  - now exists n.
  - rewrite StringFacts.append_cons in H. destruct (numeral_tail _ _ _ H) as [n' H'].
    now apply (IH n').
Qed.

Lemma length_zero (s : string) : 0 + Z.of_nat (String.length s) = 0 -> s = EmptyString.
Proof. destruct s; [reflexivity | simpl; lia]. Qed.

(** A mantissa at the head of a text either stops inside the first run of
    digits, before a digit, or takes the whole run. *)
Lemma mantissa_head (b run s1 w r : string) (i m k : Z) :
  b = run +:+ s1 -> Decimal.numeral run i ->
  (forall c t d, s1 = String c t -> ~ Decimal.digit c d) ->
  b = w +:+ r -> Decimal.mantissa w m k ->
  ((String.length w < String.length run)%nat
   /\ exists c t d, r = String c t /\ Decimal.digit c d)
  \/ exists point frac f,
       w = run +:+ point +:+ frac /\ s1 = point +:+ frac +:+ r
       /\ Decimal.numeral frac f
       /\ (point = "." \/ point = EmptyString /\ frac = EmptyString)
       /\ (run <> EmptyString \/ frac <> EmptyString).
Proof.
  intros Hb Hrun Hs1 Hw (int & point & frac & i' & f & -> & Hint & Hfrac & Hpoint & Hne & _).
  rewrite Hb, !StringFacts.append_assoc in Hw.
  destruct (run_prefix int run s1 _ i i' Hw Hrun Hs1 Hint) as (more & -> & Hrest).
  destruct more as [|c more].
  - right. rewrite StringFacts.append_nil_r in *. rewrite StringFacts.append_nil in Hrest.
    exists point, frac, f. auto.
  - left. destruct (numeral_suffix _ _ _ Hrun) as [n Hn].
    destruct (numeral_head _ _ _ Hn) as [d Hd].
    destruct Hpoint as [-> | [-> ->]].
    + rewrite !StringFacts.append_cons in Hrest. injection Hrest as <- _.
      exfalso. revert Hd. apply not_digit. simpl; tauto.
    + rewrite !StringFacts.append_nil in Hrest. rewrite StringFacts.append_cons in Hrest.
      split; [|now exists c, (more +:+ s1), d].
      rewrite !length_append. simpl. lia.
Qed.

Lemma mantissa_spec (b : string) :
  match mantissa b with
  | Some (m, nf, s2) =>
      exists w, b = w +:+ s2 /\ Decimal.mantissa w m nf
        /\ forall w' m' k' r', b = w' +:+ r' -> Decimal.mantissa w' m' k' ->
             (w' = w /\ r' = s2)
             \/ ((String.length w' < String.length w)%nat
                 /\ exists c t, r' = String c t
                                /\ (c = "."%char \/ exists d, Decimal.digit c d))
  | None => forall w m k r, b = w +:+ r -> ~ Decimal.mantissa w m k
  end.
Proof.
  unfold mantissa.
  destruct (digits_run b 0 0) as (run & i & s1 & Hb & Hrun & Hs1 & ->).
  replace (0 * 10 ^ Z.of_nat (String.length run) + i) with i by lia.
  cbv beta iota zeta.
  pose proof (mantissa_head b run s1) as Hhead.
  destruct (after_point_cases s1) as [(t & Hpoint & ->)|(Hnopoint & ->)].
  - destruct (digits_run t i 0) as (fr & f & t' & Ht & Hfr & Ht' & ->).
    cbv beta iota zeta.
    destruct ((0 + Z.of_nat (String.length run) =? 0)
              && (0 + Z.of_nat (String.length fr) =? 0)) eqn:Htest.
    + apply andb_true_iff in Htest as [Hni Hnf].
      apply Z.eqb_eq, length_zero in Hni. apply Z.eqb_eq, length_zero in Hnf.
      subst run fr. cbn.
      intros w m k r Hw Hm.
      destruct (Hhead w r i m k Hb Hrun Hs1 Hw Hm)
        as [[Hlen _]|(point & frac & f' & _ & Hs1' & Hfrac & Hp & Hne)];
        [simpl in Hlen; lia|].
      destruct Hp as [-> | [-> ->]]; [|now destruct Hne].
      rewrite Hpoint, StringFacts.append_cons, StringFacts.append_nil in Hs1'.
      injection Hs1' as Hs1'. rewrite Ht in Hs1'.
      destruct (run_prefix frac EmptyString t' r f f' Hs1' Hfr Ht' Hfrac) as (more & Hmore & _).
      destruct frac; [now destruct Hne | discriminate Hmore].
    + cbv beta iota zeta. rewrite Htest.
      assert (run <> EmptyString \/ fr <> EmptyString) as Hne.
      { destruct run; [|left; discriminate]. destruct fr; [discriminate Htest|].
        right; discriminate. }
      exists (run +:+ "." +:+ fr). split.
      { now rewrite Hb, Hpoint, Ht, !StringFacts.append_assoc. }
      split.
      { exists run, ".", fr, i, f. repeat split; auto; lia. }
      intros w' m' k' r' Hw' Hm'.
      destruct (Hhead w' r' i m' k' Hb Hrun Hs1 Hw' Hm')
        as [[Hlen (c & u & d & Hr' & Hd)]
           |(point & frac & f' & -> & Hs1' & Hfrac & Hp & Hne')].
      * right. split; [rewrite length_append; lia|]. exists c, u. eauto.
      * destruct Hp as [-> | [-> ->]].
        -- rewrite Hpoint, StringFacts.append_cons, StringFacts.append_nil in Hs1'.
           injection Hs1' as Hs1'. rewrite Ht in Hs1'.
           destruct (run_prefix frac fr t' r' f f' Hs1' Hfr Ht' Hfrac) as (more & -> & ->).
           destruct more as [|c more].
           ++ left. now rewrite StringFacts.append_nil_r, StringFacts.append_nil.
           ++ right. split; [rewrite !length_append; simpl; lia|].
              destruct (numeral_suffix _ _ _ Hfr) as [n Hn].
              destruct (numeral_head _ _ _ Hn) as [d Hd].
              exists c, (more +:+ t'). eauto.
        -- right. rewrite !StringFacts.append_nil in Hs1'.
           split; [rewrite !length_append; simpl; lia|].
           exists "."%char, t. split; [congruence | now left].
  - destruct run as [|a run].
    + cbn. intros w m k r Hw Hm.
      destruct (Hhead w r i m k Hb Hrun Hs1 Hw Hm)
        as [[Hlen _]|(point & frac & f' & _ & Hs1' & Hfrac & Hp & Hne)];
        [simpl in Hlen; lia|].
      destruct Hp as [-> | [-> ->]]; [|now destruct Hne].
      now destruct (Hnopoint (frac +:+ r)).
    + assert ((0 + Z.of_nat (String.length (String a run)) =? 0) && (0 =? 0) = false) as ->.
      { apply andb_false_iff. left. apply Z.eqb_neq. simpl String.length. lia. }
      exists (String a run). split; [exact Hb|]. split.
      { exists (String a run), EmptyString, EmptyString, i, 0.
        rewrite !StringFacts.append_nil_r. repeat split; auto; try discriminate;
          simpl; lia. }
      intros w' m' k' r' Hw' Hm'.
      destruct (Hhead w' r' i m' k' Hb Hrun Hs1 Hw' Hm')
        as [[Hlen (c & u & d & Hr' & Hd)]
           |(point & frac & f' & -> & Hs1' & Hfrac & Hp & Hne')].
      * right. split; [exact Hlen|]. exists c, u. eauto.
      * destruct Hp as [-> | [-> ->]].
        -- now destruct (Hnopoint (frac +:+ r')).
        -- left. now rewrite !StringFacts.append_nil_r, !StringFacts.append_nil in *.
Qed.

(** *** Literals *)

Lemma nearest_of_decimal (neg : bool) (m e : Z) :
  0 <= m -> Decimal.nearest neg m e = of_decimal neg m e.
Proof.
  intros Hm. unfold Decimal.nearest, of_decimal, prec, emax.
  destruct m as [|p|p]; [reflexivity| |lia].
  cbn [Z.eqb Z.to_pos]. destruct (0 <=? e); [|reflexivity].
  destruct neg; cbn [cond_Zopp]; [|reflexivity]. now rewrite Z.mul_opp_l.
Qed.

Lemma mantissa_nonneg (w : string) (m k : Z) : Decimal.mantissa w m k -> 0 <= m.
Proof.
  intros (int & point & frac & i & f & _ & Hi & Hf & _ & _ & -> & _).
  apply numeral_nonneg in Hi, Hf. nia.
Qed.

Lemma mantissa_first (w : string) (m k : Z) :
  Decimal.mantissa w m k ->
  exists c t, w = String c t /\ (c = "."%char \/ exists d, Decimal.digit c d).
Proof.
  intros (int & point & frac & i & f & -> & Hi & Hf & Hp & Hne & _).
  destruct int as [|c int].
  - destruct Hp as [-> | [-> ->]]; [|now destruct Hne].
    exists "."%char, frac. split; [reflexivity | now left].
  - exists c, (int +:+ point +:+ frac). split; [reflexivity|].
    right. exact (numeral_head _ _ _ Hi).
Qed.

Lemma mantissa_first_no_sign (w : string) (m k : Z) :
  Decimal.mantissa w m k ->
  exists c t, w = String c t /\ c <> "+"%char /\ c <> "-"%char /\ c <> "I"%char.
Proof.
  intros Hw. destruct (mantissa_first w m k Hw) as (c & t & -> & [->|[d Hd]]).
  - exists "."%char, t. repeat split; discriminate.
  - exists c, t. repeat split; try reflexivity; intros ->; revert Hd; apply not_digit;
      simpl; tauto.
Qed.

Lemma exponent_first (expo : string) (x : Z) (c : ascii) (t : string) :
  Decimal.exponent expo x -> expo = String c t -> c = "e"%char \/ c = "E"%char.
Proof.
  intros [[-> _]|(mark & sgn & ds & neg & n & -> & Hm & _)] Heq; [discriminate Heq|].
  destruct Hm as [-> | ->]; rewrite StringFacts.append_cons in Heq;
    injection Heq as <- _; auto.
Qed.

Lemma unsigned_literal_first (u : string) (d : Decimal.denotation) :
  Decimal.unsigned_literal u d ->
  exists c t, u = String c t /\ c <> "+"%char /\ c <> "-"%char.
Proof.
  intros [[-> _]|(w & expo & m & k & x & -> & Hw & _)].
  - exists "I"%char, "nfinity". repeat split; discriminate.
  - destruct (mantissa_first_no_sign w m k Hw) as (c & t & -> & Hp & Hm & _).
    exists c, (t +:+ expo). now rewrite StringFacts.append_cons.
Qed.

Lemma infinity_not_mantissa (w r post : string) (m k : Z) :
  "Infinity" +:+ post = w +:+ r -> ~ Decimal.mantissa w m k.
Proof.
  intros Heq Hw. destruct (mantissa_first_no_sign w m k Hw) as (c & t & -> & _ & _ & Hc).
  rewrite !StringFacts.append_cons in Heq. injection Heq as <- _. now apply Hc.
Qed.

(** [unsigned] converts the longest unsigned literal at the head of the
    text. *)
Lemma unsigned_reads (neg : bool) (b : string) :
  (exists u d,
      Decimal.is_prefix u b /\ Decimal.unsigned_literal u d
      /\ (forall u' d', Decimal.is_prefix u' b -> Decimal.unsigned_literal u' d' ->
                        (String.length u' <= String.length u)%nat)
      /\ unsigned neg b = Decimal.number_of neg d)
  \/ ((forall u d, Decimal.is_prefix u b -> ~ Decimal.unsigned_literal u d)
      /\ unsigned neg b = NaN).
Proof.
  unfold unsigned. destruct (String.prefix "Infinity" b) eqn:Hinf.
  - apply StringFacts.prefix_iff in Hinf as [post Hb]. left.
    exists "Infinity", Decimal.Infinite.
    split; [now exists post|]. split; [now left|]. split; [|reflexivity].
    intros u' d' [r Hu'] [[-> _]|(w & expo & m & k & x & -> & Hm & _)]; [simpl; lia|].
    rewrite Hb, StringFacts.append_assoc in Hu'.
    now destruct (infinity_not_mantissa w (expo +:+ r) post m k Hu').
  - assert (forall r, b <> "Infinity" +:+ r) as Hno.
    { intros r Hb. assert (String.prefix "Infinity" b = true) as H; [|congruence].
      apply StringFacts.prefix_iff. now exists r. }
    pose proof (mantissa_spec b) as Hspec.
    destruct (mantissa b) as [[[m nf] s2]|].
    + destruct Hspec as (w & Hb & Hw & Hmax).
      destruct (exponent_part_spec s2) as (expo & rest & Hs2 & Hexp & Hemax).
      left. exists (w +:+ expo), (Decimal.Finite m (exponent_part s2 - nf)).
      split; [exists rest; now rewrite Hb, Hs2 at 1; rewrite StringFacts.append_assoc|].
      split; [right; exists w, expo, m, nf, (exponent_part s2); auto|].
      split.
      * intros u' d' [r Hu'] [[-> _]|(w' & expo' & m' & k' & x' & -> & Hm' & Hexp' & _)];
          [now destruct (Hno r)|].
        rewrite StringFacts.append_assoc in Hu'.
        destruct (Hmax w' m' k' (expo' +:+ r) Hu' Hm') as [[-> Hr]|[Hlen (c & t & Hr & Hc)]].
        -- rewrite !length_append.
           pose proof (Hemax expo' x' r (eq_sym Hr) Hexp'). lia.
        -- destruct expo' as [|a expo'].
           ++ rewrite StringFacts.append_nil_r, length_append. lia.
           ++ rewrite StringFacts.append_cons in Hr. injection Hr as -> _.
              destruct (exponent_first _ x' c expo' Hexp' eq_refl) as [-> | ->];
                destruct Hc as [Hc|[d Hd]]; try discriminate Hc;
                exfalso; revert Hd; apply not_digit; simpl; tauto.
      * cbn [Decimal.number_of]. symmetry. apply nearest_of_decimal.
        exact (mantissa_nonneg w m nf Hw).
    + right. split; [|reflexivity].
      intros u d [r Hu] [[-> _]|(w & expo & m & k & x & -> & Hm & _)];
        [now destruct (Hno r)|].
      rewrite StringFacts.append_assoc in Hu. exact (Hspec w m k _ Hu Hm).
Qed.

Lemma trimStart_head (v : string) :
  (forall c t, v = String c t -> ~ Text.blank_unit c) -> JsString.trimStart v = v.
Proof.
  destruct v as [|c t]; [reflexivity|]. intros H. cbn [JsString.trimStart].
  destruct (JsString.is_space c) eqn:Hc; [|reflexivity].
  apply StringFacts.is_space_iff in Hc. now destruct (H c t).
Qed.

(** [parseFloat] reads a text that starts with no white space as the
    standard says: it converts the longest prefix that is a decimal
    literal. *)
Lemma parseFloat_reads (v : string) :
  (forall c t, v = String c t -> ~ Text.blank_unit c) ->
  Decimal.reads v (parseFloat v).
Proof.
  intros Hhead. unfold parseFloat. rewrite (trimStart_head v Hhead).
  destruct (sign_split v) as (sgn & Hv & Hsgn).
  destruct (sign v) as [neg b] eqn:Hsign. cbn [fst snd] in Hv, Hsgn.
  assert (forall l neg' d r, v = l +:+ r -> Decimal.literal l neg' d ->
            exists u, Decimal.is_prefix u b /\ Decimal.unsigned_literal u d /\ neg' = neg
                      /\ String.length l = (String.length sgn + String.length u)%nat)
    as Hlit.
  { intros l neg' d r Hl (sgn' & u & -> & Hsgn' & Hu).
    destruct (unsigned_literal_first u d Hu) as (h & t & Hhd & Hp & Hm).
    rewrite StringFacts.append_assoc in Hl.
    assert (sign v = (neg', u +:+ r)) as Hsign'.
    { apply (sign_unique v sgn' _ neg' h (t +:+ r) Hl Hsgn');
        [now rewrite Hhd, StringFacts.append_cons | assumption..]. }
    rewrite Hsign in Hsign'. injection Hsign' as -> ->.
    exists u. split; [now exists r|]. split; [exact Hu|]. split; [reflexivity|].
    pose proof (f_equal String.length Hl) as H1.
    pose proof (f_equal String.length Hv) as H2.
    rewrite !length_append in *. lia. }
  destruct (unsigned_reads neg b) as [(u & d & [r Hu] & Hud & Hmax & ->)|[Hnone ->]].
  - left. exists (sgn +:+ u), neg, d.
    split; [exists r; now rewrite Hv, Hu, StringFacts.append_assoc|].
    split; [now exists sgn, u|]. split; [|reflexivity].
    intros l' neg' d' [r' Hl'] Hlit'.
    destruct (Hlit l' neg' d' r' Hl' Hlit') as (u' & Hpre & Hu' & _ & ->).
    rewrite length_append. pose proof (Hmax u' d' Hpre Hu'). lia.
  - right. split; [|reflexivity].
    intros l neg' d [r Hl] Hlit'.
    destruct (Hlit l neg' d r Hl Hlit') as (u' & Hpre & Hu' & _).
    exact (Hnone u' d Hpre Hu').
Qed.




End DecimalFacts.

(* ===================================================================== *)
(** ** The view projection *)
(* ===================================================================== *)

Module PageFacts.
Import Schema Page.

(** *** The heap *)

Lemma read_new (h : heap) (v : list todo) : read (h ++ [v]) (length h) = v.
Proof. unfold read. now rewrite list_lookup_middle. Qed.

Lemma lookup_sorted_new (h : heap) (v : list todo) :
  write (h ++ [v]) (length h) (Ordering.sort by_sortOrder (read (h ++ [v]) (length h)))
    !! length h
  = Some (Ordering.sort by_sortOrder v).
Proof.
  rewrite read_new. unfold write.
  apply list_lookup_insert_eq. rewrite length_app. simpl. lia.
Qed.

Lemma lookup_alloc_old (h : heap) (v : list todo) (a : ref) (old : list todo) :
  h !! a = Some old -> (alloc h v).1 !! a = Some old.
Proof. intros H. unfold alloc; cbn [fst]. now apply lookup_app_l_Some. Qed.

Lemma lookup_write_same (h : heap) (a : ref) (v : list todo) :
  (a < length h)%nat -> write h a v !! a = Some v.
Proof. intros H. unfold write. now apply list_lookup_insert_eq. Qed.

Lemma lookup_write_other (h : heap) (a b : ref) (v : list todo) :
  a <> b -> write h a v !! b = h !! b.
Proof. intros H. unfold write. now apply list_lookup_insert_ne. Qed.

Lemma read_Some (h : heap) (a : ref) (v : list todo) :
  h !! a = Some v -> read h a = v.
Proof. unfold read. now intros ->. Qed.

(** *** The test of the filters against the specified one *)





Lemma filter_filter (f g : todo -> bool) (l : list todo) :
  List.filter g (List.filter f l) = List.filter (fun t => f t && g t) l.
Proof.
  induction l as [|x l IH]; [reflexivity|].
  simpl. destruct (f x); simpl; [destruct (g x)|]; now rewrite IH.
Qed.

Lemma filter_all (l : list todo) : List.filter (fun _ => true) l = l.
Proof. induction l as [|x l IH]; [reflexivity|]. simpl. now rewrite IH. Qed.

(** *** The array [filteredTodos] evaluates to *)

Lemma filteredTodos_result (h : heap) (data_todos : ref) (records : list todo)
    (searchFilter : string) (showCompleted : bool) :
  h !! data_todos = Some records ->
  (filteredTodos h data_todos searchFilter showCompleted).1
    !! (filteredTodos h data_todos searchFilter showCompleted).2
  = Some (Ordering.sort by_sortOrder
            (List.filter (keeps searchFilter showCompleted) records)).
Proof.
  intros Hdata.
  pose proof (lookup_lt_Some _ _ _ Hdata) as Hlt.
  pose proof (read_Some _ _ _ Hdata) as Hread.
  unfold filteredTodos, keeps, Array_filter, Array_sort.
  destruct showCompleted, (JsString.truthy (JsString.trim searchFilter));
    cbn [negb orb andb]; unfold alloc; cbn [fst snd].
  - rewrite lookup_sorted_new. now rewrite Hread.
  - rewrite Hread, filter_all. now apply lookup_write_same.
  - rewrite read_new, lookup_sorted_new, Hread. now rewrite filter_filter.
  - rewrite lookup_sorted_new, Hread. do 2 f_equal.
    apply filter_ext. intros t. now rewrite andb_true_r.
Qed.

(** With completed records shown and a blank search text no array is
    made: the result is [data.todos] itself, sorted where it stands. *)
Lemma filteredTodos_alias (h : heap) (data_todos : ref) (searchFilter : string) :
  JsString.trim searchFilter = EmptyString ->
  filteredTodos h data_todos searchFilter true
  = (write h data_todos (Ordering.sort by_sortOrder (read h data_todos)), data_todos).
Proof. intros Hblank. unfold filteredTodos, Array_sort. now rewrite Hblank. Qed.

(** In every other case the result is a new array and [data.todos]
    keeps its elements. *)
Lemma filteredTodos_keeps_data (h : heap) (data_todos : ref) (records : list todo)
    (searchFilter : string) (showCompleted : bool) :
  h !! data_todos = Some records ->
  showCompleted = false \/ JsString.trim searchFilter <> EmptyString ->
  (filteredTodos h data_todos searchFilter showCompleted).1 !! data_todos = Some records
  /\ (filteredTodos h data_todos searchFilter showCompleted).2 <> data_todos.
Proof.
  intros Hdata Hcase.
  pose proof (lookup_lt_Some _ _ _ Hdata) as Hlt.
  assert (showCompleted = false \/ JsString.truthy (JsString.trim searchFilter) = true)
    as Hcase'.
  { destruct Hcase as [?|?%StringFacts.truthy_iff]; auto. }
  unfold filteredTodos, Array_filter, Array_sort.
  destruct showCompleted, (JsString.truthy (JsString.trim searchFilter));
    cbn [negb]; unfold alloc; cbn [fst snd]; rewrite ?length_app; simpl length.
  - split; [|lia]. rewrite lookup_write_other by lia. now apply lookup_app_l_Some.
  - destruct Hcase'; discriminate.
  - split; [|lia]. rewrite lookup_write_other by lia.
    now apply lookup_app_l_Some, lookup_app_l_Some.
  - split; [|lia]. rewrite lookup_write_other by lia. now apply lookup_app_l_Some.
Qed.

(** An input that is in ascending order already is left as it is. *)
Lemma filteredTodos_ascending_data (h : heap) (data_todos : ref) (records : list todo)
    (searchFilter : string) (showCompleted : bool) :
  h !! data_todos = Some records ->
  StronglySorted View.ascending records ->
  (filteredTodos h data_todos searchFilter showCompleted).1 !! data_todos = Some records.
Proof.
  intros Hdata Hsorted.
  destruct showCompleted.
  - destruct (decide (JsString.trim searchFilter = EmptyString)) as [Hblank|Hsome].
    + rewrite filteredTodos_alias by exact Hblank. cbn [fst].
      rewrite (read_Some _ _ _ Hdata).
      unfold by_sortOrder.
      rewrite (OrderingFacts.sort_sorted_id sortOrder records Hsorted).
      apply lookup_write_same. now apply lookup_lt_Some in Hdata.
    + now apply filteredTodos_keeps_data; [|right].
  - now apply filteredTodos_keeps_data; [|left].
Qed.

(** Records of one sort order come out in the order they went in. *)
Lemma filteredTodos_ties_keep_order (h : heap) (data_todos : ref) (records shown : list todo)
    (searchFilter : string) (showCompleted : bool) (k : Z) :
  h !! data_todos = Some records ->
  (filteredTodos h data_todos searchFilter showCompleted).1
    !! (filteredTodos h data_todos searchFilter showCompleted).2 = Some shown ->
  List.filter (fun t => sortOrder t =? k) shown
  = List.filter (fun t => sortOrder t =? k)
      (List.filter (keeps searchFilter showCompleted) records).
Proof.
  intros Hdata Hshown.
  rewrite (filteredTodos_result _ _ _ _ _ Hdata) in Hshown.
  injection Hshown as <-. unfold by_sortOrder.
  apply (OrderingFacts.sort_stable sortOrder).
Qed.

(** *** The examples of the specification *)

Example shows_pending_only :
  filteredTodos_value [Sample.sink; Sample.wall] EmptyString false = [Sample.sink].
Proof. reflexivity. Qed.

Example search_finds_paint :
  filteredTodos_value [Sample.sink; Sample.wall] "paint" true = [Sample.wall].
Proof. reflexivity. Qed.

Example search_ignores_case :
  filteredTodos_value [Sample.sink; Sample.wall] "PAINT" true = [Sample.wall].
Proof. reflexivity. Qed.

(** A title in capitals with an accented letter, "CAF" and U+00C9, is
    found by the small accented letter U+00E9 alone. *)
Example search_folds_accented_capitals :
  id <$> filteredTodos_value
           [Sample.row "e" ("CAF" +:+ String (ascii_of_N 201) EmptyString) false 0 1;
            Sample.sink]
           (String (ascii_of_N 233) EmptyString) true
  = ["e"].
Proof. reflexivity. Qed.

Example search_text_is_not_trimmed :
  filteredTodos_value [Sample.sink; Sample.wall] " paint" true = [].
Proof. reflexivity. Qed.








End PageFacts.

(* ===================================================================== *)
(** ** The form actions *)
(* ===================================================================== *)

Module ServerFacts.
Import Schema Server Runs.

(** *** Queries *)

Lemma lookup_db_update (set : todo -> todo) (where_ : todo -> bool) (db : table) (k : nat) :
  db_update set where_ db !! k = (fun r => if where_ r then set r else r) <$> db !! k.
Proof. unfold db_update. apply list_lookup_fmap. Qed.

Lemma length_db_update (set : todo -> todo) (where_ : todo -> bool) (db : table) :
  length (db_update set where_ db) = length db.
Proof. unfold db_update. apply length_fmap. Qed.

Lemma db_update_none (set : todo -> todo) (i : string) (db : table) :
  Forall (fun r => id r <> i) db -> db_update set (eq_id i) db = db.
Proof.
  induction 1 as [|r db Hr _ IH]; [reflexivity|].
  unfold db_update in *. cbn [fmap list_fmap]. rewrite IH. unfold eq_id.
  now destruct (String.eqb_spec (id r) i).
Qed.

Lemma db_update_Forall (P : todo -> Prop) (set : todo -> todo) (where_ : todo -> bool)
    (db : table) :
  (forall r, P r -> P (set r)) -> Forall P db -> Forall P (db_update set where_ db).
Proof.
  intros Hset Hdb. unfold db_update. apply Forall_fmap.
  eapply Forall_impl; [exact Hdb|].
  intros r Hr. simpl. destruct (where_ r); auto.
Qed.

Lemma db_insert_fresh (row : todo) (db : table) :
  Forall (fun r => id r <> id row) db ->
  db_insert row db = Some (db ++ [stored row])%list.
Proof.
  intros Hfresh. unfold db_insert.
  assert (existsb (fun r => String.eqb (id r) (id row)) db = false) as ->; [|reflexivity].
  induction Hfresh as [|r db Hr _ IH]; [reflexivity|].
  simpl. rewrite IH. now destruct (String.eqb_spec (id r) (id row)).
Qed.

(** *** The sort order of a new row *)

Lemma nextSortOrder_empty : nextSortOrder [] = 0.
Proof. reflexivity. Qed.

(** On a table with rows, the query yields the least sort order. *)
Lemma nextSortOrder_least (db : table) :
  db <> [] ->
  exists m, nextSortOrder db = m + 1
            /\ In m (List.map sortOrder db)
            /\ Forall (fun r => m <= sortOrder r) db.
Proof.
  intros Hdb. unfold nextSortOrder, select_sortOrder_asc.
  destruct (Ordering.sort _ (List.map sortOrder db)) as [|m rest] eqn:Hs.
  - apply (f_equal length) in Hs.
    rewrite OrderingFacts.sort_length, length_map in Hs.
    destruct db; [congruence | discriminate].
  - exists m. split; [reflexivity|].
    destruct (OrderingFacts.sort_head_least (fun z => z) _ _ _ Hs) as [Hin Hall].
    split; [exact Hin|].
    rewrite Forall_forall in Hall. apply Forall_forall. intros r Hr.
    apply Hall. apply list_elem_of_In, in_map. now apply list_elem_of_In.
Qed.


Example create_needs_title :
  create [("title", "   ")] "d" 20 20 Sample.three = (Fail 400 "Title is required", Sample.three).
Proof. reflexivity. Qed.

(** A title of one no-break space, U+00A0, is blank. *)
Example create_needs_more_than_a_no_break_space :
  create [("title", String (ascii_of_N 160) EmptyString)] "d" 20 20 Sample.three
  = (Fail 400 "Title is required", Sample.three).
Proof. reflexivity. Qed.

Example create_first_row :
  create [("title", "Buy milk")] "d" 20 20 []
  = (Success, [Sample.row "d" "Buy milk" false 0 20]).
Proof. reflexivity. Qed.

Example create_refuses_taken_id :
  create [("title", "Buy milk")] "a" 20 20 Sample.three = (Thrown, Sample.three).
Proof. reflexivity. Qed.

(** C1: on a table whose rows have the sort orders 0, 1 and 2, a creation
    with the title "Buy milk" inserts a row of sort order 1, while the
    largest sort order plus 1 is 3. *)
Theorem create_takes_least_sortOrder_plus_one :
  exists row,
    create [("title", "Buy milk")] "d" 20 20 Sample.three
    = (Success, (Sample.three ++ [row])%list)
    /\ sortOrder row = 1
    /\ specified_sortOrder Sample.three = 3.
Proof. eexists. repeat split. Qed.

(** *** Updates by identifier *)

Lemma db_update_twice (set set' : todo -> todo) (i : string) (db : table) :
  (forall r, id (set r) = id r) ->
  db_update set' (eq_id i) (db_update set (eq_id i) db)
  = db_update (fun r => set' (set r)) (eq_id i) db.
Proof.
  intros Hid. unfold db_update. rewrite <- list_fmap_compose.
  apply list_fmap_ext. intros _ r _. simpl. unfold eq_id.
  destruct (String.eqb_spec (id r) i) as [Hr|Hr].
  - rewrite Hid. now destruct (String.eqb_spec (id r) i).
  - now destruct (String.eqb_spec (id r) i).
Qed.

Lemma db_update_refreshes (set : todo -> todo) (where_ : todo -> bool) (now : Z)
    (db : table) :
  (forall r, updatedAt (set r) = now) -> refreshes now db (db_update set where_ db).
Proof.
  intros Hset k r r' Hr Hr' Hneq.
  rewrite lookup_db_update, Hr in Hr'. simpl in Hr'. injection Hr' as <-.
  destruct (where_ r); [apply Hset | congruence].
Qed.

Lemma refreshes_refl (now : Z) (db : table) : refreshes now db db.
Proof. intros k r r' Hr Hr' Hneq. congruence. Qed.

(** *** The rows after a reordering *)

Lemma apply_order_cons (i : string) (position : Z) (order : list OrderEntry) (db : table) :
  apply_order ((i, position) :: order) db
  = apply_order order (db_update (set_sortOrder position) (eq_id i) db).
Proof. reflexivity. Qed.

Lemma apply_order_length (order : list OrderEntry) (db : table) :
  length (apply_order order db) = length db.
Proof.
  revert db. induction order as [|[i position] order IH]; intros db; [reflexivity|].
  now rewrite apply_order_cons, IH, length_db_update.
Qed.

Lemma apply_order_lookup (order : list OrderEntry) (db : table) (k : nat) (r : todo) :
  db !! k = Some r ->
  exists r', apply_order order db !! k = Some r'
             /\ same_except_sortOrder r r'
             /\ (id r ∉ order.*1 -> r' = r).
Proof.
  revert db r. induction order as [|[i position] order IH]; intros db r Hr.
  - exists r. repeat split; [exact Hr | now destruct r].
  - rewrite apply_order_cons.
    destruct (IH (db_update (set_sortOrder position) (eq_id i) db)
                 (if eq_id i r then set_sortOrder position r else r))
      as (r' & Hr' & Hsame & Hframe).
    { now rewrite lookup_db_update, Hr. }
    exists r'. split; [exact Hr'|]. split.
    + unfold same_except_sortOrder in *. rewrite Hsame.
      now destruct (eq_id i r).
    + intros Hnotin. cbn [fmap list_fmap fst] in Hnotin.
      apply not_elem_of_cons in Hnotin as [Hne Hnotin].
      unfold eq_id in *.
      destruct (String.eqb_spec (id r) i) as [Heq|_]; [congruence|].
      now apply Hframe.
Qed.

(** *** Normalisation *)

Lemma optional_text_stores (formData : FormData) (name : string) :
  stores_text (get formData name) (optional_text formData name).
Proof.
  unfold optional_text, get_trimmed, stores_text.
  destruct (get formData name) as [s|]; [|reflexivity]. simpl.
  destruct (JsString.trim s) as [|c v] eqn:Hv.
  - left. split; [now apply StringFacts.trim_blank | reflexivity].
  - right. exists (String c v). split; [discriminate|]. split; [|reflexivity].
    rewrite <- Hv. apply StringFacts.trim_spec.
Qed.

(** [Math.round] of the product with 100, as the store holds it, is the
    nearest integer. *)
Lemma rounded_cents_held (x : JsNumber.number) :
  Decimal.cents_held x
    (stored_cost (Some (JsNumber.Math_round (JsNumber.mul x (JsNumber.of_Z 100))))).
Proof.
  unfold Decimal.cents_held, JsNumber.mul, JsNumber.of_Z, JsNumber.prec, JsNumber.emax.
  destruct (SFmul 53 1024 x (binary_normalize 53 1024 100 0 false)) as [s|s| |s m e];
    try reflexivity.
  cbn [JsNumber.Math_round stored_cost]. unfold Decimal.nearest_integer.
  destruct (Z.leb_spec 0 e) as [He|He].
  - exists (cond_Zopp s (Zpos m) * 2 ^ e), (S754_finite s m e).
    rewrite Z.max_l, Z.max_r by lia. cbn [bind_integer Decimal.integer_number].
    repeat split; try lia.
  - rewrite Z.max_r, Z.max_l by lia.
    set (x' := cond_Zopp s (Z.pos m)). set (scale := 2 ^ (- e)).
    assert (0 < scale) as Hscale by (apply Z.pow_pos_nonneg; lia).
    pose proof (Z.div_mod (2 * x' + scale) (2 * scale) ltac:(lia)) as Hdiv.
    pose proof (Z.mod_pos_bound (2 * x' + scale) (2 * scale) ltac:(lia)) as Hmod.
    exists ((2 * x' + scale) / (2 * scale)).
    destruct ((2 * x' + scale) / (2 * scale)) as [|p|p] eqn:Hn.
    + exists (S754_zero false). cbn [bind_integer Decimal.integer_number].
      repeat split; try lia.
    + exists (S754_finite false p 0). cbn [bind_integer Decimal.integer_number cond_Zopp].
      repeat split; try lia.
    + exists (S754_finite true p 0). cbn [bind_integer Decimal.integer_number cond_Zopp].
      repeat split; try lia.
Qed.

Lemma optional_cost_stores (formData : FormData) :
  stores_cost (get formData "cost") (stored_cost (optional_cost formData)).
Proof.
  unfold optional_cost, get_trimmed, stores_cost, cents.
  destruct (get formData "cost") as [s|]; [|reflexivity]. cbn [fmap option_fmap option_map].
  pose proof (StringFacts.trim_spec s) as Hspec.
  destruct (JsString.trim s) as [|c v] eqn:Hv.
  - left. split; [now apply StringFacts.trim_blank | reflexivity].
  - right. exists (String c v), (JsNumber.parseFloat (String c v)).
    split; [discriminate|]. split; [exact Hspec|]. split.
    + apply DecimalFacts.parseFloat_reads.
      now destruct Hspec as (_ & _ & _ & _ & _ & Hhead & _).
    + cbn [JsString.truthy]. apply rounded_cents_held.
Qed.

(** *** Time stamps *)

(** C2, as amended: update, complete and restore give every row they
    change the time stamp of the call; reorder changes sort orders only
    and leaves every updatedAt as it was. *)
Theorem edits_refresh_updatedAt_reorder_keeps_it
    (JSON_parse : string -> option (list OrderEntry))
    (formData : FormData) (now : Z) (db : table) :
  refreshes now db (update formData now db).2
  /\ refreshes now db (complete formData now db).2
  /\ refreshes now db (restore formData now db).2
  /\ (forall k r r', db !! k = Some r ->
                     (reorder JSON_parse formData db).2 !! k = Some r' ->
                     updatedAt r' = updatedAt r).
Proof.
  repeat split.
  - unfold update.
    destruct (get formData "id") as [[|c i]|]; try apply refreshes_refl.
    destruct (get_trimmed formData "title") as [[|c' t]|]; try apply refreshes_refl.
    now apply db_update_refreshes.
  - unfold complete.
    destruct (get formData "id") as [[|c i]|]; try apply refreshes_refl.
    now apply db_update_refreshes.
  - unfold restore.
    destruct (get formData "id") as [[|c i]|]; try apply refreshes_refl.
    now apply db_update_refreshes.
  - intros k r r' Hr Hr'. unfold reorder in Hr'.
    destruct (get formData "order") as [[|c payload]|]; simpl in Hr'; try congruence.
    destruct (JSON_parse _) as [order|]; simpl in Hr'; try congruence.
    destruct (apply_order_lookup order db k r Hr) as (r'' & Hr'' & Hsame & _).
    rewrite Hr' in Hr''. injection Hr'' as <-.
    rewrite Hsame. reflexivity.
Qed.

(** C2, as stated, fails for reorder: dragging the row "c" to the front
    changes it and leaves its updatedAt at 12, whatever the time. *)
Lemma reorder_does_not_refresh_updatedAt :
  let db' := (reorder Json.parse [("order", Json.stringify [("c", 0); ("a", 1)])]
                Sample.three).2 in
  db' !! 2%nat = Some (set_sortOrder 0 Sample.roof)
  /\ set_sortOrder 0 Sample.roof <> Sample.roof
  /\ updatedAt (set_sortOrder 0 Sample.roof) = 12
  /\ ~ refreshes 99 Sample.three db'.
Proof.
  repeat split; try discriminate.
  intros H. specialize (H 2%nat Sample.roof (set_sortOrder 0 Sample.roof)).
  discriminate H; [reflexivity | reflexivity | discriminate].
Qed.

Example complete_refreshes :
  (complete [("id", "a")] 99 Sample.three).2 !! 0%nat
  = Some (set_completed true 99 Sample.sink).
Proof. reflexivity. Qed.

(** *** Unknown identifiers *)

(** C3, as amended: for every non-empty id that resolves to no row,
    update with a title that is not blank reports success and leaves the
    table as it is. *)
Theorem update_of_unknown_id_succeeds (formData : FormData) (now : Z) (db : table)
    (i t : string) :
  get formData "id" = Some i -> i <> EmptyString ->
  get_trimmed formData "title" = Some t -> t <> EmptyString ->
  Forall (fun r => id r <> i) db ->
  update formData now db = (Success, db).
Proof.
  intros Hid Hi Htitle Ht Hnone. unfold update. rewrite Hid, Htitle.
  destruct i as [|c i]; [congruence|]. destruct t as [|c' t]; [congruence|].
  now rewrite db_update_none.
Qed.

Lemma update_of_unknown_id_succeeds_witness :
  update [("id", "ghost"); ("title", " New title ")] 20 Sample.three
  = (Success, Sample.three).
Proof.
  apply (update_of_unknown_id_succeeds _ 20 Sample.three "ghost" "New title").
  - reflexivity.
  - discriminate.
  - reflexivity.
  - discriminate.
  - repeat constructor; discriminate.
Defined.

(** C3, as stated, fails: no row has the id "ghost", and the update
    reports success. *)
Lemma update_of_unknown_id_reports_success :
  Forall (fun r => id r <> "ghost") Sample.three
  /\ (update [("id", "ghost"); ("title", "New title")] 20 Sample.three).1 = Success
  /\ (forall status error,
        (update [("id", "ghost"); ("title", "New title")] 20 Sample.three).1
        <> Fail status error).
Proof. repeat split; try discriminate. repeat constructor; discriminate. Qed.

(** *** Completing and restoring twice *)

(** C6, as amended: completing a record twice leaves the table that one
    completion at the time of the second call leaves, so the second call
    changes nothing but the updatedAt of that record; likewise for
    restoring. *)
Theorem complete_twice_is_latest_complete (formData : FormData) (t1 t2 : Z) (db : table) :
  complete formData t2 (complete formData t1 db).2 = complete formData t2 db
  /\ restore formData t2 (restore formData t1 db).2 = restore formData t2 db
  /\ (forall k r1 r2,
        (complete formData t1 db).2 !! k = Some r1 ->
        (complete formData t2 (complete formData t1 db).2).2 !! k = Some r2 ->
        same_except_updatedAt r1 r2)
  /\ (forall k r1 r2,
        (restore formData t1 db).2 !! k = Some r1 ->
        (restore formData t2 (restore formData t1 db).2).2 !! k = Some r2 ->
        same_except_updatedAt r1 r2).
Proof.
  unfold complete, restore.
  destruct (get formData "id") as [[|c i]|]; cbn [snd];
    try (repeat split; intros; unfold same_except_updatedAt;
         match goal with
         | H1 : ?db !! ?k = Some ?a, H2 : ?db !! ?k = Some ?b |- _ =>
             rewrite H1 in H2; injection H2 as <-; now destruct a
         end).
  split; [|split; [|split]].
  - now rewrite db_update_twice.
  - now rewrite db_update_twice.
  - intros k r1 r2 H1 H2. rewrite lookup_db_update, H1 in H2. simpl in H2.
    injection H2 as <-. unfold same_except_updatedAt.
    rewrite lookup_db_update in H1.
    destruct (db !! k) as [r|]; [|discriminate]. simpl in H1. injection H1 as <-.
    unfold eq_id. destruct (String.eqb_spec (id r) (String c i)) as [Hr|Hr]; simpl.
    + destruct (String.eqb_spec (id r) (String c i)); [reflexivity | contradiction].
    + destruct (String.eqb_spec (id r) (String c i)); [contradiction | now destruct r].
  - intros k r1 r2 H1 H2. rewrite lookup_db_update, H1 in H2. simpl in H2.
    injection H2 as <-. unfold same_except_updatedAt.
    rewrite lookup_db_update in H1.
    destruct (db !! k) as [r|]; [|discriminate]. simpl in H1. injection H1 as <-.
    unfold eq_id. destruct (String.eqb_spec (id r) (String c i)) as [Hr|Hr]; simpl.
    + destruct (String.eqb_spec (id r) (String c i)); [reflexivity | contradiction].
    + destruct (String.eqb_spec (id r) (String c i)); [contradiction | now destruct r].
Qed.

(** C6, as stated, fails: a second completion one tick later leaves a
    table that differs from the one the first completion left. *)
Lemma second_complete_changes_the_table :
  (complete [("id", "a")] 21 (complete [("id", "a")] 20 Sample.three).2).2
  <> (complete [("id", "a")] 20 Sample.three).2
  /\ (restore [("id", "b")] 21 (restore [("id", "b")] 20 Sample.three).2).2
     <> (restore [("id", "b")] 20 Sample.three).2.
Proof. split; discriminate. Qed.

(** *** What an update writes *)

(** C9: after a successful update of the id [i], every row of that id
    holds, in each optional field, the normalised submitted value and
    nothing of what it held before: for a text, the submitted text without
    the white space at its ends, or nothing when the field is missing or
    blank; for the cost, the rounded number of cents of the submitted text,
    or nothing when the field is missing or blank. *)
Theorem update_overwrites_optional_fields (formData : FormData) (now : Z) (db : table)
    (i : string) (k : nat) (r : todo) :
  get formData "id" = Some i ->
  (update formData now db).1 = Success ->
  db !! k = Some r -> id r = i ->
  exists r', (update formData now db).2 !! k = Some r'
    /\ stores_text (get formData "description") (description r')
    /\ stores_text (get formData "notes") (notes r')
    /\ stores_text (get formData "contractorName") (contractorName r')
    /\ stores_text (get formData "contractorDetails") (contractorDetails r')
    /\ stores_cost (get formData "cost") (cost r').
Proof.
  intros Hid Hok Hr Hri. unfold update in *. rewrite Hid in *.
  destruct i as [|c i]; [discriminate Hok|].
  destruct (get_trimmed formData "title") as [[|c' t]|]; try discriminate Hok.
  cbn [snd]. rewrite lookup_db_update, Hr. simpl.
  unfold eq_id. rewrite Hri, String.eqb_refl.
  eexists. split; [reflexivity|]. cbn.
  repeat split; try apply optional_text_stores. apply optional_cost_stores.
Qed.

Lemma update_overwrites_optional_fields_witness :
  exists r',
    (update [("id", "d"); ("title", "Tile floor"); ("notes", "  "); ("cost", " 12.5 ")]
       30 [Sample.detailed]).2 !! 0%nat = Some r'
    /\ stores_text None (description r')
    /\ stores_text (Some "  ") (notes r')
    /\ stores_text None (contractorName r')
    /\ stores_text None (contractorDetails r')
    /\ stores_cost (Some " 12.5 ") (cost r').
Proof.
  apply (update_overwrites_optional_fields
           [("id", "d"); ("title", "Tile floor"); ("notes", "  "); ("cost", " 12.5 ")]
           30 [Sample.detailed] "d" 0%nat Sample.detailed); reflexivity.
Defined.

(** The cents of some cost texts, and a cost that is not a number. *)
Example cents_as_stored :
  stored_cost (cents (Some "12.5")) = Some (S754_finite false 1250 0)
  /\ stored_cost (cents (Some "-5")) = Some (S754_finite true 500 0)
  /\ stored_cost (cents (Some "0")) = Some (S754_zero false)
  /\ stored_cost (cents (Some "-0.001")) = Some (S754_zero false)
  /\ stored_cost (cents (Some "abc")) = None.
Proof. repeat split. Qed.

Example update_clears_what_is_not_submitted :
  (update [("id", "d"); ("title", "Tile floor"); ("notes", "  "); ("cost", "12.5")]
     30 [Sample.detailed]).2
  = [ {| id := "d"; title := "Tile floor"; description := None; notes := None;
         contractorHired := false; contractorName := None; contractorDetails := None;
         cost := Some (S754_finite false 1250 0); completed := false; sortOrder := 3;
         createdAt := 13; updatedAt := 30 |} ].
Proof. reflexivity. Qed.

(** *** What a reordering leaves alone *)

(** C10: when the payload of a reorder parses, every row keeps its place
    and all its fields but the sort order (completed and updatedAt among
    them), and a row whose id is not in the assignments is unchanged. *)
Theorem reorder_changes_sortOrder_only
    (JSON_parse : string -> option (list OrderEntry))
    (formData : FormData) (db : table) (payload : string) (order : list OrderEntry) :
  get formData "order" = Some payload ->
  JSON_parse payload = Some order ->
  length (reorder JSON_parse formData db).2 = length db
  /\ forall k r, db !! k = Some r ->
       exists r', (reorder JSON_parse formData db).2 !! k = Some r'
                  /\ same_except_sortOrder r r'
                  /\ completed r' = completed r
                  /\ updatedAt r' = updatedAt r
                  /\ (id r ∉ order.*1 -> r' = r).
Proof.
  intros Hget Hparse. unfold reorder. rewrite Hget.
  destruct payload as [|c payload].
  - cbn [snd]. split; [reflexivity|]. intros k r Hr. exists r.
    repeat split; auto. now destruct r.
  - rewrite Hparse. cbn [snd]. split; [apply apply_order_length|].
    intros k r Hr.
    destruct (apply_order_lookup order db k r Hr) as (r' & Hr' & Hsame & Hframe).
    exists r'. repeat split; auto; rewrite Hsame; reflexivity.
Qed.

Lemma reorder_changes_sortOrder_only_witness :
  let formData := [("order", Json.stringify [("c", 0); ("a", 1)])] in
  length (reorder Json.parse formData Sample.three).2 = length Sample.three
  /\ forall k r, Sample.three !! k = Some r ->
       exists r', (reorder Json.parse formData Sample.three).2 !! k = Some r'
                  /\ same_except_sortOrder r r'
                  /\ completed r' = completed r
                  /\ updatedAt r' = updatedAt r
                  /\ (id r ∉ [("c", 0); ("a", 1)].*1 -> r' = r).
Proof.
  apply (reorder_changes_sortOrder_only Json.parse
           [("order", Json.stringify [("c", 0); ("a", 1)])] Sample.three
           (Json.stringify [("c", 0); ("a", 1)]) [("c", 0); ("a", 1)]);
    reflexivity.
Defined.

Example reorder_moves_roof_first :
  List.map (fun r => (id r, sortOrder r))
    (reorder Json.parse [("order", Json.stringify [("c", 0); ("a", 1)])] Sample.three).2
  = [("a", 1); ("b", 1); ("c", 0)].
Proof. reflexivity. Qed.

(** *** The cost column *)




Lemma db_delete_Forall (P : todo -> Prop) (where_ : todo -> bool) (db : table) :
  Forall P db -> Forall P (db_delete where_ db).
Proof.
  unfold db_delete. induction 1 as [|r db Hr _ IH]; simpl; [constructor|].
  destruct (where_ r); simpl; [exact IH | now constructor].
Qed.






Example cost_in_cents :
  cents (Some "12.5") = Some (S754_finite false 1250 0)
  /\ cents (Some EmptyString) = None
  /\ cents (Some "1.005") = Some (S754_finite false 100 0)
  /\ cents (Some "1e308") = Some (S754_infinity false).
Proof. repeat split. Qed.

(** *** A cost that is not a number *)





Example cost_with_trailing_text :
  List.map cost (create [("title", "Fix sink"); ("cost", "12abc")] "z" 20 20 []).2
  = [Some (S754_finite false 1200 0)].
Proof. reflexivity. Qed.


End ServerFacts.

(* ===================================================================== *)
(** ** Outcomes of the actions *)
(* ===================================================================== *)

Module OutcomeFacts.
Import Schema Server Runs Tables.

Lemma db_insert_taken (row : todo) (db : table) :
  (exists r, r ∈ db /\ id r = id row) -> db_insert row db = None.
Proof.
  intros (r & Hin & Hid). unfold db_insert.
  assert (existsb (fun r0 => String.eqb (id r0) (id row)) db = true) as ->; [|reflexivity].
  apply existsb_exists. exists r. split; [now apply list_elem_of_In|].
  now apply String.eqb_eq.
Qed.

(** X1: a create, update, complete, restore or delete that does not
    report success leaves the table as it was, whatever made it fail. *)
Theorem failed_action_leaves_table
    (JSON_parse : string -> option (list OrderEntry)) (a : Action) (db : table) :
  (forall formData, a <> Reorder formData) ->
  (run JSON_parse a db).1 <> Success -> (run JSON_parse a db).2 = db.
Proof.
  destruct a as [fd uuid createdNow updatedNow|fd now|fd now|fd now|fd|fd];
    cbn [run]; intros Hkind Hfail.
  - unfold create in *.
    destruct (get_trimmed fd "title") as [[|c t]|]; try reflexivity.
    destruct (db_insert _ db); [now contradiction Hfail | reflexivity].
  - unfold update in *.
    destruct (get fd "id") as [[|c i]|]; try reflexivity.
    destruct (get_trimmed fd "title") as [[|c' t]|]; try reflexivity.
    now contradiction Hfail.
  - unfold complete in *.
    destruct (get fd "id") as [[|c i]|]; try reflexivity. now contradiction Hfail.
  - unfold restore in *.
    destruct (get fd "id") as [[|c i]|]; try reflexivity. now contradiction Hfail.
  - unfold delete in *.
    destruct (get fd "id") as [[|c i]|]; try reflexivity. now contradiction Hfail.
  - now contradiction (Hkind fd).
Qed.

Lemma failed_action_leaves_table_witness :
  (run Json.parse (Create [("title", "Buy milk")] "b" 20 20) Sample.three).2 = Sample.three.
Proof.
  apply (failed_action_leaves_table Json.parse
           (Create [("title", "Buy milk")] "b" 20 20) Sample.three); discriminate.
Defined.

(** X2: a creation has one of three outcomes.  With a missing or blank
    title it fails with status 400 and "Title is required"; with a title
    and an id that a row already has, the insert is refused and nothing is
    stored; otherwise it succeeds and appends one row, which has the drawn
    id and the title without the white space at its ends, is not
    completed, and carries as createdAt and updatedAt the two readings of
    the clock the insert takes. *)
Theorem create_outcome (formData : FormData) (uuid : string)
    (createdNow updatedNow : Z) (db : table) :
  (get formData "title" = None
   \/ (exists s, get formData "title" = Some s /\ Text.blank s) ->
   create formData uuid createdNow updatedNow db = (Fail 400 "Title is required", db))
  /\ (forall s t, get formData "title" = Some s -> Text.trimmed_of s t ->
        t <> EmptyString ->
        (exists r, r ∈ db /\ id r = uuid) ->
        create formData uuid createdNow updatedNow db = (Thrown, db))
  /\ (forall s t, get formData "title" = Some s -> Text.trimmed_of s t ->
        t <> EmptyString ->
        Forall (fun r => id r <> uuid) db ->
        exists row, create formData uuid createdNow updatedNow db
                    = (Success, (db ++ [row])%list)
                    /\ id row = uuid /\ title row = t /\ completed row = false
                    /\ createdAt row = createdNow /\ updatedAt row = updatedNow).
Proof.
  unfold create, get_trimmed. repeat split.
  - intros [-> | (s & -> & Hs)]; [reflexivity|].
    apply StringFacts.trim_blank in Hs. cbn. now rewrite Hs.
  - intros s t -> Htrim Ht Htaken. cbn.
    rewrite <- (StringFacts.trimmed_of_trim s t Htrim).
    destruct t as [|c t]; [congruence|]. now rewrite db_insert_taken.
  - intros s t -> Htrim Ht Hfresh. cbn.
    rewrite <- (StringFacts.trimmed_of_trim s t Htrim).
    destruct t as [|c t]; [congruence|].
    rewrite ServerFacts.db_insert_fresh by exact Hfresh. eauto 10.
Qed.

Example create_outcomes_on_sample :
  create [("description", "x")] "d" 20 21 Sample.three
  = (Fail 400 "Title is required", Sample.three)
  /\ create [("title", " Buy milk ")] "b" 20 21 Sample.three = (Thrown, Sample.three)
  /\ (fun r => (id r, title r, createdAt r, updatedAt r))
       <$> (create [("title", " Buy milk ")] "d" 20 21 Sample.three).2
     = [("a", "Fix sink", 10, 10); ("b", "Paint wall", 11, 11); ("c", "Mend roof", 12, 12);
        ("d", "Buy milk", 20, 21)].
Proof. repeat split. Qed.

(** X3: an update succeeds exactly when the id field is present and not
    empty and the title is present and not blank; the table plays no part,
    so an id that no row has is not an error. *)
Theorem update_succeeds_iff (formData : FormData) (now : Z) (db : table) :
  (update formData now db).1 = Success
  <-> (exists i, get formData "id" = Some i /\ i <> EmptyString)
      /\ (exists t, get_trimmed formData "title" = Some t /\ t <> EmptyString).
Proof.
  unfold update.
  destruct (get formData "id") as [[|c i]|];
    try (split; [discriminate | intros [(i' & [= <-] & Hi) _]; congruence]).
  destruct (get_trimmed formData "title") as [[|c' t]|].
  - split; [discriminate | intros [_ (t' & [= <-] & Ht)]; congruence].
  - split; [intros _ | reflexivity]. split; eexists; split; eauto; discriminate.
  - split; [discriminate | intros [_ (t' & H & _)]; discriminate].
Qed.

(** The id is tested before the title. *)
Example update_reports_id_first :
  update [] 20 Sample.three = (Fail 400 "Todo ID is required", Sample.three)
  /\ update [("id", "a")] 20 Sample.three = (Fail 400 "Title is required", Sample.three).
Proof. split; reflexivity. Qed.

End OutcomeFacts.

(* ===================================================================== *)
(** ** What the actions keep of a table *)
(* ===================================================================== *)

Module TableFacts.
Import Schema Server Runs Tables.

(** *** Deleting *)

Lemma db_delete_elem_of (where_ : todo -> bool) (db : table) (r : todo) :
  r ∈ db_delete where_ db <-> r ∈ db /\ where_ r = false.
Proof.
  unfold db_delete. rewrite !list_elem_of_In, filter_In, negb_true_iff. tauto.
Qed.

Lemma db_delete_sublist (where_ : todo -> bool) (db : table) :
  db_delete where_ db `sublist_of` db.
Proof.
  unfold db_delete. induction db as [|r db IH]; simpl; [constructor|].
  destruct (where_ r); simpl; now constructor.
Qed.

Lemma db_delete_twice (where_ : todo -> bool) (db : table) :
  db_delete where_ (db_delete where_ db) = db_delete where_ db.
Proof.
  unfold db_delete. induction db as [|r db IH]; simpl; [reflexivity|].
  destruct (where_ r) eqn:Hr; simpl; [exact IH|].
  rewrite Hr. simpl. now rewrite IH.
Qed.

(** X4: a delete with a non-empty id succeeds whether or not a row has
    that id; the rows left are exactly the rows of other ids, in their
    order; and a second delete with the same form changes nothing. *)
Theorem delete_removes_the_rows_of_the_id (formData : FormData) (db : table) (i : string) :
  get formData "id" = Some i -> i <> EmptyString ->
  (delete formData db).1 = Success
  /\ (forall r, r ∈ (delete formData db).2 <-> r ∈ db /\ id r <> i)
  /\ (delete formData db).2 `sublist_of` db
  /\ delete formData (delete formData db).2 = delete formData db.
Proof.
  intros Hid Hi. unfold delete. rewrite Hid.
  destruct i as [|c i]; [congruence|]. cbn [fst snd].
  split; [reflexivity|]. split; [|split].
  - intros r. rewrite db_delete_elem_of. unfold eq_id.
    destruct (String.eqb_spec (id r) (String c i)); intuition congruence.
  - apply db_delete_sublist.
  - now rewrite db_delete_twice.
Qed.

Lemma delete_removes_the_rows_of_the_id_witness :
  (delete [("id", "b")] Sample.three).1 = Success
  /\ (forall r, r ∈ (delete [("id", "b")] Sample.three).2 <-> r ∈ Sample.three /\ id r <> "b")
  /\ (delete [("id", "b")] Sample.three).2 `sublist_of` Sample.three
  /\ delete [("id", "b")] (delete [("id", "b")] Sample.three).2
     = delete [("id", "b")] Sample.three.
Proof.
  apply (delete_removes_the_rows_of_the_id [("id", "b")] Sample.three "b").
  - reflexivity.
  - discriminate.
Defined.

Example delete_on_sample :
  (delete [("id", "b")] Sample.three).2 = [Sample.sink; Sample.roof]
  /\ delete [("id", "ghost")] Sample.three = (Success, Sample.three).
Proof. split; reflexivity. Qed.

(** *** The primary key *)

Lemma db_update_ids (set : todo -> todo) (where_ : todo -> bool) (db : table) :
  (forall r, id (set r) = id r) -> id <$> db_update set where_ db = id <$> db.
Proof.
  intros Hset. unfold db_update. rewrite <- list_fmap_compose.
  apply list_fmap_ext. intros _ r _. simpl. destruct (where_ r); [apply Hset | reflexivity].
Qed.

Lemma apply_order_ids (order : list OrderEntry) (db : table) :
  id <$> apply_order order db = id <$> db.
Proof.
  revert db. induction order as [|[i position] order IH]; intros db; [reflexivity|].
  rewrite ServerFacts.apply_order_cons, IH. now apply db_update_ids.
Qed.

Lemma db_insert_ids (row : todo) (db db' : table) :
  db_insert row db = Some db' -> NoDup (id <$> db) -> NoDup (id <$> db').
Proof.
  unfold db_insert.
  destruct (existsb _ db) eqn:Hex; [discriminate|]. intros [= <-] Hdb.
  rewrite fmap_app. apply NoDup_app. split; [exact Hdb|]. split.
  - intros i Hi Hrow. apply list_elem_of_singleton in Hrow as ->.
    apply list_elem_of_fmap in Hi as (r & Hr & Hin).
    assert (existsb (fun r0 => String.eqb (id r0) (id row)) db = true) as Htrue.
    { apply existsb_exists. exists r. split; [now apply list_elem_of_In|].
      now apply String.eqb_eq. }
    congruence.
  - apply NoDup_singleton.
Qed.

Lemma run_ids_unique (JSON_parse : string -> option (list OrderEntry))
    (a : Action) (db : table) :
  NoDup (id <$> db) -> NoDup (id <$> (run JSON_parse a db).2).
Proof.
  intros Hdb. destruct a as [fd uuid now|fd now|fd now|fd now|fd|fd]; cbn [run].
  - unfold create.
    destruct (get_trimmed fd "title") as [[|c t]|]; try exact Hdb.
    destruct (db_insert _ db) as [db'|] eqn:Hins; [|exact Hdb].
    now apply (db_insert_ids _ _ _ Hins).
  - unfold update.
    destruct (get fd "id") as [[|c i]|]; try exact Hdb.
    destruct (get_trimmed fd "title") as [[|c' t]|]; try exact Hdb.
    cbn [snd]. now rewrite db_update_ids.
  - unfold complete. destruct (get fd "id") as [[|c i]|]; try exact Hdb.
    cbn [snd]. now rewrite db_update_ids.
  - unfold restore. destruct (get fd "id") as [[|c i]|]; try exact Hdb.
    cbn [snd]. now rewrite db_update_ids.
  - unfold delete. destruct (get fd "id") as [[|c i]|]; try exact Hdb.
    cbn [snd]. eapply sublist_NoDup; [exact Hdb|].
    apply fmap_sublist, db_delete_sublist.
  - unfold reorder. destruct (get fd "order") as [[|c payload]|]; try exact Hdb.
    destruct (JSON_parse _); [|exact Hdb].
    cbn [snd]. now rewrite apply_order_ids.
Qed.

(** X5: in every table that a sequence of requests leaves, starting from
    the empty table, no two rows have the same id: a creation whose drawn
    id is taken stores nothing, and no other action writes the id. *)
Theorem reachable_ids_are_unique
    (JSON_parse : string -> option (list OrderEntry)) (actions : list Action) :
  NoDup (id <$> run_all JSON_parse actions []).
Proof.
  assert (forall db, NoDup (id <$> db) -> NoDup (id <$> run_all JSON_parse actions db)) as H.
  { induction actions as [|a actions IH]; intros db Hdb; [exact Hdb|].
    apply (IH (run JSON_parse a db).2). now apply run_ids_unique. }
  apply H. constructor.
Qed.

Example second_creation_with_taken_id_is_dropped :
  id <$> run_all Json.parse
           [Create [("title", "One")] "u" 1 1; Create [("title", "Two")] "u" 2 2;
            Create [("title", "Three")] "v" 3 3] []
  = ["u"; "v"].
Proof. reflexivity. Qed.

(** *** Titles and optional texts *)

Lemma optional_text_not_empty (formData : FormData) (name : string) :
  optional_text formData name <> Some EmptyString.
Proof.
  unfold optional_text. destruct (get_trimmed formData name) as [[|c s]|]; discriminate.
Qed.

Lemma db_update_well_formed (set : todo -> todo) (where_ : todo -> bool) (db : table) :
  (forall r, well_formed r -> well_formed (set r)) ->
  Forall well_formed db -> Forall well_formed (db_update set where_ db).
Proof. apply ServerFacts.db_update_Forall. Qed.

Lemma apply_order_well_formed (order : list OrderEntry) (db : table) :
  Forall well_formed db -> Forall well_formed (apply_order order db).
Proof.
  revert db. induction order as [|[i position] order IH]; intros db Hdb; [exact Hdb|].
  rewrite ServerFacts.apply_order_cons. apply IH. now apply db_update_well_formed.
Qed.

Lemma run_well_formed (JSON_parse : string -> option (list OrderEntry))
    (a : Action) (db : table) :
  Forall well_formed db -> Forall well_formed (run JSON_parse a db).2.
Proof.
  intros Hdb. destruct a as [fd uuid now|fd now|fd now|fd now|fd|fd]; cbn [run].
  - unfold create.
    destruct (get_trimmed fd "title") as [[|c t]|]; try exact Hdb.
    unfold db_insert. destruct (existsb _ db); [exact Hdb|]. cbn [snd].
    apply Forall_app. split; [exact Hdb|]. constructor; [|constructor].
    unfold well_formed; cbn. repeat split; try apply optional_text_not_empty. discriminate.
  - unfold update.
    destruct (get fd "id") as [[|c i]|]; try exact Hdb.
    destruct (get_trimmed fd "title") as [[|c' t]|]; try exact Hdb.
    cbn [snd]. apply db_update_well_formed; [|exact Hdb].
    intros r _. unfold well_formed; cbn.
    repeat split; try apply optional_text_not_empty. discriminate.
  - unfold complete. destruct (get fd "id") as [[|c i]|]; try exact Hdb.
    now apply db_update_well_formed.
  - unfold restore. destruct (get fd "id") as [[|c i]|]; try exact Hdb.
    now apply db_update_well_formed.
  - unfold delete. destruct (get fd "id") as [[|c i]|]; try exact Hdb.
    now apply ServerFacts.db_delete_Forall.
  - unfold reorder. destruct (get fd "order") as [[|c payload]|]; try exact Hdb.
    destruct (JSON_parse _); [|exact Hdb].
    now apply apply_order_well_formed.
Qed.

(** X6: in every table that a sequence of requests leaves, starting from
    the empty table, every row has a title that is not empty, and none of
    description, notes, contractor name and contractor details is present
    and empty: a blank submission is stored as absent. *)
Theorem reachable_rows_are_well_formed
    (JSON_parse : string -> option (list OrderEntry)) (actions : list Action) :
  Forall well_formed (run_all JSON_parse actions []).
Proof.
  assert (forall db, Forall well_formed db ->
                     Forall well_formed (run_all JSON_parse actions db)) as H.
  { induction actions as [|a actions IH]; intros db Hdb; [exact Hdb|].
    apply (IH (run JSON_parse a db).2). now apply run_well_formed. }
  apply H. constructor.
Qed.

Example blank_fields_are_stored_absent :
  (fun r => (title r, description r, notes r, contractorName r))
    <$> run_all Json.parse
          [Create [("title", " Fix sink "); ("description", "  "); ("notes", EmptyString);
                   ("contractorName", " Ann ")] "u" 1 1;
           Update [("id", "u"); ("title", "   ")] 2] []
  = [("Fix sink", None, None, Some "Ann")].
Proof. reflexivity. Qed.

(** *** What an update leaves alone *)

(** X7: an update keeps the number and the places of the rows and, in
    every row, the id, the completed flag, the sort order and the time of
    creation; a row of another id than the submitted one is not changed at
    all. *)
Theorem update_keeps_identity_and_place (formData : FormData) (now : Z) (db : table) :
  length (update formData now db).2 = length db
  /\ forall k r, db !! k = Some r ->
       exists r', (update formData now db).2 !! k = Some r'
                  /\ same_identity r r'
                  /\ (get formData "id" <> Some (id r) -> r' = r).
Proof.
  unfold update.
  destruct (get formData "id") as [[|c i]|];
    try (split; [reflexivity|]; intros k r Hr; exists r; repeat split; auto).
  destruct (get_trimmed formData "title") as [[|c' t]|];
    try (split; [reflexivity|]; intros k r Hr; exists r; repeat split; auto).
  cbn [snd]. split; [apply ServerFacts.length_db_update|].
  intros k r Hr. rewrite ServerFacts.lookup_db_update, Hr. simpl.
  eexists. split; [reflexivity|]. unfold eq_id.
  destruct (String.eqb_spec (id r) (String c i)) as [Heq|Hne].
  - split; [repeat split|]. intros Hother. congruence.
  - split; [repeat split|]. reflexivity.
Qed.

Example update_keeps_position_and_flag :
  (fun r => (id r, completed r, sortOrder r, createdAt r, updatedAt r))
    <$> (update [("id", "b"); ("title", "Paint door")] 30 Sample.three).2
  = [("a", false, 0, 10, 10); ("b", true, 1, 11, 30); ("c", false, 2, 12, 12)].
Proof. reflexivity. Qed.

(** *** Completing, then restoring *)

(** X8: restoring after completing, with the same form, leaves the table
    that restoring alone leaves; a row that was pending before the two
    calls is as it was, up to its time of last update. *)
Theorem restore_undoes_complete (formData : FormData) (t1 t2 : Z) (db : table) :
  restore formData t2 (complete formData t1 db).2 = restore formData t2 db
  /\ forall k r, db !! k = Some r -> completed r = false ->
       exists r', (restore formData t2 (complete formData t1 db).2).2 !! k = Some r'
                  /\ same_except_updatedAt r r'.
Proof.
  unfold restore, complete.
  destruct (get formData "id") as [[|c i]|]; cbn [snd];
    try (split; [reflexivity|]; intros k r Hr _; exists r; split; [exact Hr|];
         unfold same_except_updatedAt; now destruct r).
  split; [now rewrite ServerFacts.db_update_twice|].
  intros k r Hr Hpending.
  rewrite ServerFacts.db_update_twice by reflexivity.
  rewrite ServerFacts.lookup_db_update, Hr. simpl.
  eexists. split; [reflexivity|]. unfold same_except_updatedAt.
  destruct (eq_id _ r); destruct r; simpl in *; now subst.
Qed.

Example complete_then_restore_on_sample :
  (restore [("id", "a")] 31 (complete [("id", "a")] 30 Sample.three).2).2
  = [set_completed false 31 Sample.sink; Sample.wall; Sample.roof].
Proof. reflexivity. Qed.

End TableFacts.

(* ===================================================================== *)
(** ** Reordering and loading *)
(* ===================================================================== *)

Module ReorderFacts.
Import Schema Server Runs Tables Loader.

(** *** The sort orders a reordering leaves *)

Lemma apply_order_rowwise (order : list OrderEntry) (db : table) :
  apply_order order db = reordered order <$> db.
Proof.
  revert db. induction order as [|[j position] order IH]; intros db.
  - unfold reordered. simpl. now rewrite list_fmap_id.
  - rewrite ServerFacts.apply_order_cons, IH. unfold db_update.
    rewrite <- list_fmap_compose. apply list_fmap_ext. intros _ r _.
    unfold reordered, eq_id. simpl.
    destruct (String.eqb (id r) j); simpl; now destruct (assigned order (id r)).
Qed.

Lemma assigned_reordered (order : list OrderEntry) (r : todo) :
  reordered order (reordered order r) = reordered order r.
Proof.
  unfold reordered. destruct (assigned order (id r)) as [p|] eqn:Hp; simpl.
  - now rewrite Hp.
  - now rewrite Hp.
Qed.

Lemma assigned_distinct (order : list OrderEntry) (i : string) (position : Z) :
  NoDup order.*1 -> (i, position) ∈ order -> assigned order i = Some position.
Proof.
  induction order as [|[j p] order IH]; intros Hnodup Hin.
  - now apply elem_of_nil in Hin.
  - cbn [fmap list_fmap fst] in Hnodup. apply NoDup_cons in Hnodup as [Hj Hnodup].
    apply elem_of_cons in Hin as [[= -> ->]|Hin]; simpl.
    + destruct (assigned order j) as [q|] eqn:Hq.
      * exfalso. apply Hj. clear -Hq. induction order as [|[k q'] order IH]; [discriminate|].
        simpl in Hq. cbn [fmap list_fmap fst].
        destruct (assigned order j); [right; auto|].
        destruct (String.eqb_spec j k) as [->|]; [left | discriminate].
      * now rewrite String.eqb_refl.
    + now rewrite (IH Hnodup Hin).
Qed.

Lemma assigned_not_listed (order : list OrderEntry) (i : string) :
  i ∉ order.*1 -> assigned order i = None.
Proof.
  induction order as [|[j p] order IH]; intros Hnot; [reflexivity|].
  cbn [fmap list_fmap fst] in Hnot. apply not_elem_of_cons in Hnot as [Hne Hnot].
  simpl. rewrite (IH Hnot). now destruct (String.eqb_spec i j).
Qed.

Lemma reorder_rowwise (JSON_parse : string -> option (list OrderEntry))
    (formData : FormData) (db : table) (c : ascii) (payload : string)
    (order : list OrderEntry) :
  get formData "order" = Some (String c payload) ->
  JSON_parse (String c payload) = Some order ->
  reorder JSON_parse formData db = (Success, reordered order <$> db).
Proof.
  intros Hget Hparse. unfold reorder.
  now rewrite Hget, Hparse, apply_order_rowwise.
Qed.

Lemma lookup_reordered (order : list OrderEntry) (db : table) (k : nat) :
  (reordered order <$> db) !! k = reordered order <$> db !! k.
Proof. apply list_lookup_fmap. Qed.

Lemma lookup_reordered_distinct (order : list OrderEntry) (db : table)
    (i : string) (position : Z) (k : nat) (r : todo) :
  NoDup order.*1 -> (i, position) ∈ order -> db !! k = Some r -> id r = i ->
  (reordered order <$> db) !! k = Some (set_sortOrder position r).
Proof.
  intros Hnodup Hin Hr Hid. rewrite lookup_reordered, Hr. simpl. unfold reordered.
  now rewrite Hid, (assigned_distinct order i position Hnodup Hin).
Qed.

(** X9: when the payload of a reorder parses, every row ends with the
    sort order of the last assignment that names its id, and a row no
    assignment names keeps its own; when the assignments name each id once,
    a row of a listed id gets exactly the sort order listed for it. *)
Theorem reorder_applies_last_assignment
    (JSON_parse : string -> option (list OrderEntry))
    (formData : FormData) (db : table) (c : ascii) (payload : string)
    (order : list OrderEntry) :
  get formData "order" = Some (String c payload) ->
  JSON_parse (String c payload) = Some order ->
  reorder JSON_parse formData db = (Success, reordered order <$> db)
  /\ (NoDup order.*1 ->
      forall i position k r,
        (i, position) ∈ order -> db !! k = Some r -> id r = i ->
        (reorder JSON_parse formData db).2 !! k = Some (set_sortOrder position r)).
Proof.
  intros Hget Hparse.
  rewrite (reorder_rowwise JSON_parse formData db c payload order Hget Hparse).
  split; [reflexivity|]. intros Hnodup i position k r Hin Hr Hid. cbn [snd].
  now apply lookup_reordered_distinct with (i := i).
Qed.

Lemma reorder_applies_last_assignment_witness :
  let formData := [("order", Json.stringify [("c", 0); ("a", 1); ("c", 7)])] in
  reorder Json.parse formData Sample.three
  = (Success, reordered [("c", 0); ("a", 1); ("c", 7)] <$> Sample.three)
  /\ (NoDup [("c", 0); ("a", 1); ("c", 7)].*1 ->
      forall i position k r,
        (i, position) ∈ [("c", 0); ("a", 1); ("c", 7)] ->
        Sample.three !! k = Some r -> id r = i ->
        (reorder Json.parse formData Sample.three).2 !! k = Some (set_sortOrder position r)).
Proof.
  apply (reorder_applies_last_assignment Json.parse
           [("order", Json.stringify [("c", 0); ("a", 1); ("c", 7)])] Sample.three
           "[" (String.substring 1 100 (Json.stringify [("c", 0); ("a", 1); ("c", 7)]))
           [("c", 0); ("a", 1); ("c", 7)]); reflexivity.
Defined.

Example later_assignment_wins :
  sortOrder <$> (reorder Json.parse
                   [("order", Json.stringify [("c", 0); ("a", 1); ("c", 7)])]
                   Sample.three).2
  = [1; 1; 7].
Proof. reflexivity. Qed.

(** X10: submitting the same order a second time changes nothing. *)
Theorem reorder_twice_is_reorder_once
    (JSON_parse : string -> option (list OrderEntry)) (formData : FormData) (db : table) :
  reorder JSON_parse formData (reorder JSON_parse formData db).2
  = reorder JSON_parse formData db.
Proof.
  unfold reorder.
  destruct (get formData "order") as [[|c payload]|]; try reflexivity.
  destruct (JSON_parse _) as [order|]; [|reflexivity]. cbn [snd].
  rewrite !apply_order_rowwise, <- list_fmap_compose. f_equal.
  apply list_fmap_ext. intros _ r _. apply assigned_reordered.
Qed.

(** *** Loading *)

Lemma sorted_precedes (l : list todo) (x y : todo) :
  StronglySorted View.ascending l -> x ∈ l -> y ∈ l ->
  sortOrder x < sortOrder y -> precedes x y l.
Proof.
  induction 1 as [|z l Hl IH Hz]; intros Hx Hy Hlt.
  - now apply elem_of_nil in Hx.
  - rewrite Forall_forall in Hz. unfold View.ascending in Hz.
    apply elem_of_cons in Hx as [->|Hx].
    + apply elem_of_cons in Hy as [->|Hy]; [lia|].
      apply list_elem_of_split in Hy as (l2 & l3 & ->).
      now exists [], l2, l3.
    + apply elem_of_cons in Hy as [->|Hy].
      * specialize (Hz x Hx). lia.
      * destruct (IH Hx Hy Hlt) as (l1 & l2 & l3 & ->).
        now exists (z :: l1), l2, l3.
Qed.

Lemma load_perm (db : table) : Permutation (load db) db.
Proof. apply OrderingFacts.sort_perm. Qed.

Lemma load_sorted (db : table) : StronglySorted View.ascending (load db).
Proof. apply (OrderingFacts.sort_sorted sortOrder). Qed.

Lemma load_precedes (db : table) (x y : todo) :
  x ∈ db -> y ∈ db -> sortOrder x < sortOrder y -> precedes x y (load db).
Proof.
  intros Hx Hy Hlt.
  apply sorted_precedes; [apply load_sorted | | | exact Hlt]; now rewrite load_perm.
Qed.

(** X11: [load] returns the rows of the table, each as often as the table
    has it, in ascending sort order; a row of a smaller sort order comes
    before every row of a larger one. *)
Theorem load_returns_rows_ascending (db : table) :
  Permutation (load db) db
  /\ StronglySorted View.ascending (load db)
  /\ forall x y, x ∈ db -> y ∈ db -> sortOrder x < sortOrder y -> precedes x y (load db).
Proof.
  split; [apply load_perm|]. split; [apply load_sorted|]. apply load_precedes.
Qed.

Example load_after_drag :
  id <$> load (reorder Json.parse [("order", Json.stringify [("c", 0); ("a", 1)])]
                 Sample.three).2
  = ["c"; "a"; "b"].
Proof. reflexivity. Qed.

(** X12: after a reorder whose assignments name each id once, [load]
    returns the row of an id that was assigned a smaller sort order before
    the row of an id that was assigned a larger one. *)
Theorem load_after_reorder_follows_the_order
    (JSON_parse : string -> option (list OrderEntry))
    (formData : FormData) (db : table) (c : ascii) (payload : string)
    (order : list OrderEntry) (a b : string) (pa pb : Z) (ra rb : todo) :
  get formData "order" = Some (String c payload) ->
  JSON_parse (String c payload) = Some order ->
  NoDup order.*1 ->
  (a, pa) ∈ order -> (b, pb) ∈ order -> pa < pb ->
  ra ∈ db -> id ra = a -> rb ∈ db -> id rb = b ->
  precedes (set_sortOrder pa ra) (set_sortOrder pb rb)
           (load (reorder JSON_parse formData db).2).
Proof.
  intros Hget Hparse Hnodup Ha Hb Hlt Hra Hida Hrb Hidb.
  rewrite (reorder_rowwise JSON_parse formData db c payload order Hget Hparse). cbn [snd].
  apply load_precedes; [| |exact Hlt].
  - apply list_elem_of_lookup in Hra as [k Hk]. apply list_elem_of_lookup. exists k.
    now apply lookup_reordered_distinct with (i := a).
  - apply list_elem_of_lookup in Hrb as [k Hk]. apply list_elem_of_lookup. exists k.
    now apply lookup_reordered_distinct with (i := b).
Qed.

Lemma load_after_reorder_follows_the_order_witness :
  precedes (set_sortOrder 0 Sample.roof) (set_sortOrder 1 Sample.sink)
    (load (reorder Json.parse [("order", Json.stringify [("c", 0); ("a", 1)])]
             Sample.three).2).
Proof.
  apply (load_after_reorder_follows_the_order Json.parse
           [("order", Json.stringify [("c", 0); ("a", 1)])] Sample.three
           "[" (String.substring 1 100 (Json.stringify [("c", 0); ("a", 1)]))
           [("c", 0); ("a", 1)] "c" "a" 0 1 Sample.roof Sample.sink);
    try reflexivity.
  - apply (bool_decide_unpack _). exact I.
  - repeat constructor.
  - repeat constructor.
  - repeat constructor.
  - repeat constructor.
Defined.

End ReorderFacts.

(* ===================================================================== *)
(** ** The reorder gesture *)
(* ===================================================================== *)

Module GestureFacts.
Import Schema Server Tables Gesture.

(** *** [findIndex] and [splice] *)

Lemma findIndex_from_found {A : Type} (p : A -> bool) (l : list A) (k : Z)
    (d : nat) (x : A) :
  l !! d = Some x -> p x = true ->
  (forall j y, (j < d)%nat -> l !! j = Some y -> p y = false) ->
  JsArray.findIndex_from p l k = k + Z.of_nat d.
Proof.
  revert k d. induction l as [|z l IH]; intros k d Hd Hx Hbefore; [discriminate|].
  cbn [JsArray.findIndex_from]. destruct d as [|d].
  - injection Hd as ->. rewrite Hx. lia.
  - rewrite (Hbefore 0%nat z) by (try lia; reflexivity).
    rewrite (IH (k + 1) d); [lia | exact Hd | exact Hx |].
    intros j y Hj Hy. apply (Hbefore (S j) y); [lia | exact Hy].
Qed.

Lemma findIndex_from_none {A : Type} (p : A -> bool) (l : list A) (k : Z) :
  Forall (fun x => p x = false) l -> JsArray.findIndex_from p l k = -1.
Proof.
  intros H. revert k. induction H as [|x l Hx _ IH]; intros k; [reflexivity|].
  cbn [JsArray.findIndex_from]. now rewrite Hx.
Qed.

(** In a list of distinct ids the item of an id is found where it is. *)
Lemma findIndex_by_id (l : list todo) (d : nat) (x : todo) (i : string) :
  NoDup (id <$> l) -> l !! d = Some x -> id x = i ->
  JsArray.findIndex (fun t => String.eqb (id t) i) l = Z.of_nat d.
Proof.
  intros Hnodup Hd Hid. unfold JsArray.findIndex.
  rewrite (findIndex_from_found _ l 0 d x Hd); [lia | now apply String.eqb_eq |].
  intros j y Hj Hy. apply String.eqb_neq. intros Hyi.
  assert (j = d); [|lia].
  eapply NoDup_lookup; [exact Hnodup | |]; rewrite list_lookup_fmap.
  - now rewrite Hy.
  - rewrite Hd. simpl. congruence.
Qed.

Lemma take_out_put_in_perm {A : Type} (l items : list A) (k d : nat) :
  (take d (drop k l) ++ take k l ++ items ++ drop (k + d) l)%list ≡ₚ (items ++ l)%list.
Proof.
  rewrite <- (take_drop k l) at 4.
  rewrite <- (take_drop d (drop k l)) at 2. rewrite drop_drop.
  generalize (take d (drop k l)) (take k l) (drop (k + d) l). intros a b c.
  rewrite (app_assoc a b), (Permutation_app_comm a b), <- (app_assoc b a).
  rewrite (app_assoc items b), (Permutation_app_comm items b), <- (app_assoc b items).
  apply Permutation_app_head.
  rewrite !app_assoc. apply Permutation_app_tail, Permutation_app_comm.
Qed.

Lemma splice_perm {A : Type} (l : list A) (start deleteCount : Z) (items : list A) :
  ((JsArray.splice l start deleteCount items).1
   ++ (JsArray.splice l start deleteCount items).2)%list ≡ₚ (items ++ l)%list.
Proof. unfold JsArray.splice. cbn [fst snd]. apply take_out_put_in_perm. Qed.

Lemma splice_removed_length {A : Type} (l : list A) (start : Z) (items : list A) :
  (length (JsArray.splice l start 1 items).1 <= 1)%nat.
Proof.
  unfold JsArray.splice. cbn [fst]. rewrite length_take. lia.
Qed.

Lemma splice_remove_at {A : Type} (l : list A) (d : nat) (x : A) :
  l !! d = Some x ->
  JsArray.splice l (Z.of_nat d) 1 [] = ([x], (take d l ++ drop (S d) l)%list).
Proof.
  intros Hd. pose proof (lookup_lt_Some _ _ _ Hd) as Hlt.
  unfold JsArray.splice.
  replace (Z.of_nat d <? 0) with false by (symmetry; apply Z.ltb_ge; lia).
  replace (Z.min (Z.of_nat d) (Z.of_nat (length l))) with (Z.of_nat d) by lia.
  replace (Z.min (Z.max 1 0) (Z.of_nat (length l) - Z.of_nat d)) with 1 by lia.
  rewrite Nat2Z.id. change (Z.to_nat 1) with 1%nat.
  rewrite (drop_S l x d Hd). simpl. now rewrite Nat.add_1_r.
Qed.

Lemma splice_remove_last {A : Type} (l : list A) (x : A) :
  last l = Some x ->
  JsArray.splice l (-1) 1 [] = ([x], take (length l - 1) l).
Proof.
  intros Hlast. rewrite last_lookup in Hlast.
  pose proof (lookup_lt_Some _ _ _ Hlast) as Hlt.
  unfold JsArray.splice. change (-1 <? 0) with true. cbn match.
  replace (Z.max (Z.of_nat (length l) + -1) 0) with (Z.of_nat (length l - 1)) by lia.
  replace (Z.min (Z.max 1 0) (Z.of_nat (length l) - Z.of_nat (length l - 1))) with 1 by lia.
  rewrite Nat2Z.id. change (Z.to_nat 1) with 1%nat.
  replace (pred (length l)) with (length l - 1)%nat in Hlast by lia.
  rewrite (drop_S l x _ Hlast). simpl.
  rewrite take_0, (drop_ge l (length l - 1 + 1)) by lia. now rewrite app_nil_r.
Qed.

Lemma splice_insert_at {A : Type} (l : list A) (t : nat) (x : A) :
  (t <= length l)%nat ->
  JsArray.splice l (Z.of_nat t) 0 [x] = ([], (take t l ++ x :: drop t l)%list).
Proof.
  intros Ht. unfold JsArray.splice.
  replace (Z.of_nat t <? 0) with false by (symmetry; apply Z.ltb_ge; lia).
  replace (Z.min (Z.of_nat t) (Z.of_nat (length l))) with (Z.of_nat t) by lia.
  replace (Z.min (Z.max 0 0) (Z.of_nat (length l) - Z.of_nat t)) with 0 by lia.
  rewrite Nat2Z.id. change (Z.to_nat 0) with 0%nat.
  simpl. now rewrite Nat.add_0_r.
Qed.

Lemma splice_nothing_removed {A : Type} (l : list A) (start : Z) (items : list A) :
  (JsArray.splice l start 0 items).1 = [].
Proof.
  unfold JsArray.splice. cbn [fst].
  replace (Z.to_nat (Z.min (Z.max 0 0) _)) with 0%nat by lia. apply take_0.
Qed.

(** *** The order a drop submits *)

Lemma numbered_ids (todos : list todo) : (numbered todos).*1 = id <$> todos.
Proof.
  unfold numbered. rewrite fmap_imap. rewrite <- (imap_const id todos).
  now apply imap_ext.
Qed.

Lemma numbered_positions (todos : list todo) :
  (numbered todos).*2 = Z.of_nat <$> seq 0 (length todos).
Proof.
  unfold numbered. rewrite fmap_imap.
  rewrite <- (imap_seq_0 todos Z.of_nat). now apply imap_ext.
Qed.

Lemma lookup_numbered (todos : list todo) (j : nat) :
  numbered todos !! j = (fun t => (id t, Z.of_nat j)) <$> todos !! j.
Proof. unfold numbered. apply list_lookup_imap. Qed.

(** Every request carries the visible items, in some sequence, numbered
    from 0. *)
Lemma handleDrop_request (visible : list todo) (draggedItem : option todo)
    (targetTodo : todo) (order : list OrderEntry) :
  handleDrop visible draggedItem targetTodo = Request order ->
  exists todos, todos ≡ₚ visible /\ order = numbered todos.
Proof.
  unfold handleDrop. destruct draggedItem as [dragged|]; [|discriminate].
  destruct (String.eqb (id dragged) (id targetTodo)); [discriminate|].
  pose proof (splice_perm visible
                (JsArray.findIndex (fun t => String.eqb (id t) (id dragged)) visible) 1 [])
    as Hfirst.
  pose proof (splice_removed_length visible
                (JsArray.findIndex (fun t => String.eqb (id t) (id dragged)) visible) [])
    as Hone.
  destruct (JsArray.splice visible _ 1 []) as [removed todos1]. cbn [fst snd] in *.
  destruct removed as [|moved rest]; [discriminate|].
  destruct rest as [|? ?]; [|simpl in Hone; lia].
  pose proof (splice_perm todos1
                (JsArray.findIndex (fun t => String.eqb (id t) (id targetTodo)) visible)
                0 [moved]) as Hsecond.
  pose proof (splice_nothing_removed todos1
                (JsArray.findIndex (fun t => String.eqb (id t) (id targetTodo)) visible)
                [moved]) as Hnone.
  destruct (JsArray.splice todos1 _ 0 [moved]) as [removed2 todos2]. cbn [fst snd] in *.
  subst removed2. intros [= <-]. exists todos2. split; [|reflexivity].
  simpl in Hfirst, Hsecond. now rewrite Hsecond, Hfirst.
Qed.

(** X13: whatever a drop submits is a renumbering of the visible list:
    the ids are those of the visible items, each as often as it is shown,
    and the sort orders are 0, 1, ... in sequence. *)
Theorem drop_renumbers_the_visible_items (visible : list todo)
    (draggedItem : option todo) (targetTodo : todo) (order : list OrderEntry) :
  handleDrop visible draggedItem targetTodo = Request order ->
  order.*1 ≡ₚ id <$> visible
  /\ order.*2 = Z.of_nat <$> seq 0 (length visible).
Proof.
  intros Hdrop. apply handleDrop_request in Hdrop as (todos & Hperm & ->).
  rewrite numbered_ids, numbered_positions. split.
  - now rewrite Hperm.
  - now rewrite (Permutation_length Hperm).
Qed.

Lemma drop_renumbers_the_visible_items_witness :
  [("c", 0); ("a", 1); ("b", 2)].*1 ≡ₚ id <$> Sample.three
  /\ [("c", 0); ("a", 1); ("b", 2)].*2 = Z.of_nat <$> seq 0 (length Sample.three).
Proof.
  apply (drop_renumbers_the_visible_items Sample.three (Some Sample.roof) Sample.sink).
  reflexivity.
Defined.

(** Moving the item at [k] to the place [t]. *)
Lemma handleDrop_moves (visible : list todo) (dragged targetTodo : todo)
    (k t : nat) (x : todo) :
  id dragged <> id targetTodo ->
  JsArray.splice visible
    (JsArray.findIndex (fun v => String.eqb (id v) (id dragged)) visible) 1 []
  = ([x], (take k visible ++ drop (S k) visible)%list) ->
  (k < length visible)%nat ->
  JsArray.findIndex (fun v => String.eqb (id v) (id targetTodo)) visible = Z.of_nat t ->
  (t < length visible)%nat ->
  exists order, handleDrop visible (Some dragged) targetTodo = Request order
                /\ length order = length visible
                /\ order !! t = Some (id x, Z.of_nat t).
Proof.
  intros Hne Hremove Hk Htarget Ht. unfold handleDrop.
  destruct (String.eqb_spec (id dragged) (id targetTodo)); [contradiction|].
  rewrite Hremove, Htarget.
  assert (length (take k visible ++ drop (S k) visible) = (length visible - 1)%nat) as Hlen.
  { rewrite length_app, length_take, length_drop. lia. }
  rewrite splice_insert_at by lia.
  eexists. split; [reflexivity|]. split.
  - unfold numbered. rewrite length_imap, length_app, length_take. simpl.
    rewrite length_drop. lia.
  - rewrite lookup_numbered, list_lookup_middle; [reflexivity|].
    rewrite length_take. lia.
Qed.

(** The sequence a drop of the item at [d] on the item at [t] numbers. *)
Lemma handleDrop_sequence (visible : list todo) (dragged targetTodo : todo)
    (d t : nat) (x y : todo) :
  NoDup (id <$> visible) ->
  visible !! d = Some x -> id x = id dragged ->
  visible !! t = Some y -> id y = id targetTodo ->
  id dragged <> id targetTodo ->
  handleDrop visible (Some dragged) targetTodo
  = Request (numbered (take t (take d visible ++ drop (S d) visible)
                       ++ x :: drop t (take d visible ++ drop (S d) visible))).
Proof.
  intros Hnodup Hd Hx Ht Hy Hne. unfold handleDrop.
  destruct (String.eqb_spec (id dragged) (id targetTodo)); [contradiction|].
  rewrite (findIndex_by_id visible d x (id dragged) Hnodup Hd Hx).
  rewrite (findIndex_by_id visible t y (id targetTodo) Hnodup Ht Hy).
  rewrite (splice_remove_at visible d x Hd).
  apply lookup_lt_Some in Hd, Ht.
  rewrite splice_insert_at; [reflexivity|].
  rewrite length_app, length_take, length_drop. lia.
Qed.

(** X14: in a visible list of distinct ids, dropping the dragged item on
    another item submits an order of the same length in which the dragged
    item has the place the target had.  The target is then next to it:
    one place further down when the item was dragged upwards, so that the
    item goes before the target, and one place further up when it was
    dragged downwards, so that the item goes after the target. *)
Theorem drop_puts_dragged_at_the_place_of_the_target (visible : list todo)
    (dragged targetTodo : todo) (d t : nat) (x y : todo) :
  NoDup (id <$> visible) ->
  visible !! d = Some x -> id x = id dragged ->
  visible !! t = Some y -> id y = id targetTodo ->
  id dragged <> id targetTodo ->
  exists order, handleDrop visible (Some dragged) targetTodo = Request order
                /\ length order = length visible
                /\ order !! t = Some (id dragged, Z.of_nat t)
                /\ ((t < d)%nat ->
                    order !! (t + 1)%nat = Some (id targetTodo, Z.of_nat (t + 1)))
                /\ ((d < t)%nat ->
                    order !! (t - 1)%nat = Some (id targetTodo, Z.of_nat (t - 1))).
Proof.
  intros Hnodup Hd Hx Ht Hy Hne.
  rewrite (handleDrop_sequence visible dragged targetTodo d t x y Hnodup Hd Hx Ht Hy Hne).
  pose proof (lookup_lt_Some _ _ _ Hd) as Hdlt.
  pose proof (lookup_lt_Some _ _ _ Ht) as Htlt.
  set (rest := (take d visible ++ drop (S d) visible)%list).
  assert (length rest = (length visible - 1)%nat) as Hlen.
  { unfold rest. rewrite length_app, length_take, length_drop. lia. }
  assert (length (take t rest) = t) as Htake by (rewrite length_take; lia).
  eexists. split; [reflexivity|]. split; [|split; [|split]].
  - unfold numbered. rewrite length_imap, length_app, length_take. simpl.
    rewrite length_drop. lia.
  - rewrite lookup_numbered, list_lookup_middle by (now rewrite Htake).
    simpl. now rewrite Hx.
  - intros Hup. rewrite lookup_numbered.
    rewrite lookup_app_r by (rewrite Htake; lia). rewrite Htake.
    replace (t + 1 - t)%nat with 1%nat by lia. simpl.
    rewrite lookup_drop, Nat.add_0_r. unfold rest.
    rewrite lookup_app_l by (rewrite length_take; lia).
    rewrite lookup_take_lt by lia. rewrite Ht. simpl. now rewrite Hy.
  - intros Hdown. rewrite lookup_numbered.
    rewrite lookup_app_l by (rewrite Htake; lia).
    rewrite lookup_take_lt by lia. unfold rest.
    rewrite lookup_app_r by (rewrite length_take; lia).
    rewrite length_take, lookup_drop.
    replace (S d + (t - 1 - d `min` length visible))%nat with t by lia.
    rewrite Ht. simpl. now rewrite Hy.
Qed.

Lemma drop_puts_dragged_at_the_place_of_the_target_witness :
  exists order, handleDrop Sample.three (Some Sample.roof) Sample.sink = Request order
                /\ length order = length Sample.three
                /\ order !! 0%nat = Some (id Sample.roof, Z.of_nat 0)
                /\ ((0 < 2)%nat ->
                    order !! (0 + 1)%nat = Some (id Sample.sink, Z.of_nat (0 + 1)))
                /\ ((2 < 0)%nat ->
                    order !! (0 - 1)%nat = Some (id Sample.sink, Z.of_nat (0 - 1))).
Proof.
  apply (drop_puts_dragged_at_the_place_of_the_target Sample.three
           Sample.roof Sample.sink 2 0 Sample.roof Sample.sink); try reflexivity.
  - apply (bool_decide_unpack _). exact I.
  - discriminate.
Defined.

Example drag_up_and_down :
  handleDrop Sample.three (Some Sample.roof) Sample.sink
  = Request [("c", 0); ("a", 1); ("b", 2)]
  /\ handleDrop Sample.three (Some Sample.sink) Sample.roof
     = Request [("b", 0); ("c", 1); ("a", 2)]
  /\ handleDrop Sample.three (Some Sample.sink) Sample.sink = NoRequest
  /\ handleDrop Sample.three None Sample.sink = NoRequest
  /\ handleDrop [] (Some Sample.sink) Sample.roof = TypeError.
Proof. repeat split. Qed.

(** X15: when the dragged item is no longer in the visible list, the
    search for it yields -1 and the splice takes the last visible item
    instead: the order submitted moves that item to the place of the
    target. *)
Theorem drop_of_hidden_item_moves_the_last (visible : list todo)
    (dragged targetTodo : todo) (t : nat) (y z : todo) :
  NoDup (id <$> visible) ->
  Forall (fun v => id v <> id dragged) visible ->
  last visible = Some z ->
  visible !! t = Some y -> id y = id targetTodo ->
  exists order, handleDrop visible (Some dragged) targetTodo = Request order
                /\ length order = length visible
                /\ order !! t = Some (id z, Z.of_nat t).
Proof.
  intros Hnodup Hhidden Hlast Ht Hy.
  pose proof (lookup_lt_Some _ _ _ Ht) as Hlt.
  assert (id dragged <> id targetTodo) as Hne.
  { rewrite <- Hy. rewrite Forall_forall in Hhidden.
    intros Heq. apply (Hhidden y); [|congruence].
    apply list_elem_of_lookup. now exists t. }
  apply (handleDrop_moves visible dragged targetTodo (length visible - 1) t z Hne).
  - unfold JsArray.findIndex. rewrite findIndex_from_none.
    + rewrite (splice_remove_last visible z Hlast). f_equal.
      rewrite (drop_ge visible (S (length visible - 1))) by lia. now rewrite app_nil_r.
    + eapply Forall_impl; [exact Hhidden|]. intros v Hv. now apply String.eqb_neq.
  - lia.
  - now apply (findIndex_by_id visible t y).
  - exact Hlt.
Qed.

Lemma drop_of_hidden_item_moves_the_last_witness :
  exists order, handleDrop Sample.three (Some Sample.detailed) Sample.sink = Request order
                /\ length order = length Sample.three
                /\ order !! 0%nat = Some (id Sample.roof, Z.of_nat 0).
Proof.
  apply (drop_of_hidden_item_moves_the_last Sample.three
           Sample.detailed Sample.sink 0 Sample.sink Sample.roof); try reflexivity.
  - apply (bool_decide_unpack _). exact I.
  - repeat constructor; discriminate.
Defined.

(** *** A drop as the server applies it *)

(** X16: when the order a drop submits on a visible list of distinct ids
    is applied by the reorder action, a row whose id is not in the visible
    list is left as it is, and a row whose id stands at place [j] of the
    submitted order gets the sort order [j]. *)
Theorem drop_then_reorder_numbers_the_visible_rows
    (JSON_parse : string -> option (list OrderEntry))
    (visible : list todo) (draggedItem : option todo) (targetTodo : todo)
    (order : list OrderEntry) (formData : FormData) (c : ascii) (payload : string)
    (db : table) (k : nat) (r : todo) :
  handleDrop visible draggedItem targetTodo = Request order ->
  NoDup (id <$> visible) ->
  get formData "order" = Some (String c payload) ->
  JSON_parse (String c payload) = Some order ->
  db !! k = Some r ->
  (id r ∉ id <$> visible -> (reorder JSON_parse formData db).2 !! k = Some r)
  /\ (forall j, order.*1 !! j = Some (id r) ->
        (reorder JSON_parse formData db).2 !! k = Some (set_sortOrder (Z.of_nat j) r)).
Proof.
  intros Hdrop Hnodup Hget Hparse Hr.
  rewrite (ReorderFacts.reorder_rowwise JSON_parse formData db c payload order Hget Hparse).
  cbn [snd].
  apply handleDrop_request in Hdrop as (todos & Hperm & ->).
  assert (NoDup (numbered todos).*1) as Hids.
  { rewrite numbered_ids, Hperm. exact Hnodup. }
  split.
  - intros Hhidden. rewrite ReorderFacts.lookup_reordered, Hr. simpl.
    unfold reordered. rewrite ReorderFacts.assigned_not_listed; [reflexivity|].
    now rewrite numbered_ids, Hperm.
  - intros j Hj. apply ReorderFacts.lookup_reordered_distinct with (i := id r); auto.
    rewrite numbered_ids, list_lookup_fmap in Hj.
    destruct (todos !! j) as [v|] eqn:Hv; [|discriminate]. simpl in Hj.
    injection Hj as Hj. apply list_elem_of_lookup. exists j.
    rewrite lookup_numbered, Hv. simpl. now rewrite Hj.
Qed.

Lemma drop_then_reorder_numbers_the_visible_rows_witness :
  let order := [("c", 0); ("a", 1)] in
  let formData := reorder_form order in
  (id Sample.wall ∉ id <$> [Sample.sink; Sample.roof] ->
   (reorder Json.parse formData Sample.three).2 !! 1%nat = Some Sample.wall)
  /\ (forall j, order.*1 !! j = Some (id Sample.wall) ->
        (reorder Json.parse formData Sample.three).2 !! 1%nat
        = Some (set_sortOrder (Z.of_nat j) Sample.wall)).
Proof.
  apply (drop_then_reorder_numbers_the_visible_rows Json.parse
           [Sample.sink; Sample.roof] (Some Sample.roof) Sample.sink
           [("c", 0); ("a", 1)] (reorder_form [("c", 0); ("a", 1)])
           "[" (String.substring 1 100 (Json.stringify [("c", 0); ("a", 1)]))
           Sample.three 1%nat Sample.wall); try reflexivity.
  apply (bool_decide_unpack _). exact I.
Defined.

Example drop_on_filtered_view :
  handleDrop [Sample.sink; Sample.roof] (Some Sample.roof) Sample.sink
  = Request [("c", 0); ("a", 1)]
  /\ (fun r => (id r, sortOrder r))
       <$> (reorder Json.parse (reorder_form [("c", 0); ("a", 1)]) Sample.three).2
     = [("a", 1); ("b", 1); ("c", 0)].
Proof. split; reflexivity. Qed.

End GestureFacts.

(* ===================================================================== *)
(** ** The projection on loaded data *)
(* ===================================================================== *)

Module ProjectionFacts.
Import Schema Page Loader.

(** *** Filtering a sorted sequence *)

Section FilterSort.
Context {A : Type} (key : A -> Z) (f : A -> bool).

Let compareFn : A -> A -> Z := fun a b => key a - key b.
Let ascending : A -> A -> Prop := fun a b => key a <= key b.

Lemma insert_before_least (x : A) (l : list A) :
  Forall (ascending x) l -> Ordering.insert_before compareFn x l = x :: l.
Proof.
  destruct 1 as [|y l Hy _]; [reflexivity|].
  cbn [Ordering.insert_before]. unfold compareFn at 1.
  destruct (Z.leb_spec (key x - key y) 0); [reflexivity|].
  unfold ascending in Hy. lia.
Qed.

Lemma filter_insert_before (x : A) (l : list A) :
  StronglySorted ascending l ->
  List.filter f (Ordering.insert_before compareFn x l)
  = if f x then Ordering.insert_before compareFn x (List.filter f l) else List.filter f l.
Proof.
  induction 1 as [|y l Hl IH Hy]; [simpl; now destruct (f x)|].
  cbn [Ordering.insert_before]. unfold compareFn at 1.
  destruct (Z.leb_spec (key x - key y) 0) as [Hle|Hgt].
  - cbn [List.filter]. destruct (f x) eqn:Hx; [|reflexivity].
    destruct (f y) eqn:Hfy.
    + cbn [Ordering.insert_before]. unfold compareFn at 1.
      destruct (Z.leb_spec (key x - key y) 0); [reflexivity | lia].
    + rewrite insert_before_least; [reflexivity|].
      apply Forall_forall. intros z Hz.
      apply list_elem_of_In, filter_In in Hz as [Hz _].
      rewrite Forall_forall in Hy. specialize (Hy z (proj2 (list_elem_of_In _ _) Hz)).
      unfold ascending in *. lia.
  - cbn [List.filter]. rewrite IH. destruct (f y) eqn:Hfy, (f x) eqn:Hx; try reflexivity.
    cbn [Ordering.insert_before]. unfold compareFn at 2.
    destruct (Z.leb_spec (key x - key y) 0); [lia | reflexivity].
Qed.

(** Filtering the sorted sequence is sorting the filtered one. *)
Lemma filter_sort (l : list A) :
  List.filter f (Ordering.sort compareFn l) = Ordering.sort compareFn (List.filter f l).
Proof.
  induction l as [|x l IH]; [reflexivity|].
  cbn [Ordering.sort List.filter].
  rewrite filter_insert_before by apply (OrderingFacts.sort_sorted key).
  rewrite IH. now destruct (f x).
Qed.
End FilterSort.

Lemma filter_idem (f : todo -> bool) (l : list todo) :
  List.filter f (List.filter f l) = List.filter f l.
Proof.
  induction l as [|x l IH]; [reflexivity|].
  simpl. destruct (f x) eqn:Hx; simpl; [rewrite Hx|]; now rewrite IH.
Qed.

Lemma filteredTodos_value_eq (records : list todo) (searchFilter : string)
    (showCompleted : bool) :
  filteredTodos_value records searchFilter showCompleted
  = Ordering.sort by_sortOrder (List.filter (keeps searchFilter showCompleted) records).
Proof.
  unfold filteredTodos_value.
  pose proof (PageFacts.filteredTodos_result [records] 0%nat records
                searchFilter showCompleted eq_refl) as H.
  destruct (filteredTodos [records] 0%nat searchFilter showCompleted) as [h out].
  cbn [fst snd] in H. unfold read. now rewrite H.
Qed.

(** X17: on the list that [load] returns, the projection is the two
    filters alone: the sort has nothing to move, the array [data.todos]
    holds the same elements afterwards, whatever the toggles, and the
    result holds the loaded rows that pass the filters, in loaded order. *)
Theorem projection_of_loaded_rows_is_the_filter
    (h : list (list todo)) (data_todos : nat) (db : table)
    (searchFilter : string) (showCompleted : bool) :
  h !! data_todos = Some (load db) ->
  (filteredTodos h data_todos searchFilter showCompleted).1 !! data_todos = Some (load db)
  /\ (filteredTodos h data_todos searchFilter showCompleted).1
       !! (filteredTodos h data_todos searchFilter showCompleted).2
     = Some (List.filter (keeps searchFilter showCompleted) (load db)).
Proof.
  intros Hdata.
  assert (StronglySorted View.ascending (load db)) as Hsorted
    by apply (OrderingFacts.sort_sorted sortOrder).
  split.
  - now apply PageFacts.filteredTodos_ascending_data.
  - rewrite (PageFacts.filteredTodos_result _ _ _ _ _ Hdata). f_equal.
    unfold by_sortOrder. rewrite <- (filter_sort sortOrder).
    now rewrite (OrderingFacts.sort_sorted_id sortOrder (load db) Hsorted).
Qed.

Lemma projection_of_loaded_rows_is_the_filter_witness :
  (filteredTodos [load Sample.unordered] 0%nat EmptyString true).1 !! 0%nat
  = Some (load Sample.unordered)
  /\ (filteredTodos [load Sample.unordered] 0%nat EmptyString true).1
       !! (filteredTodos [load Sample.unordered] 0%nat EmptyString true).2
     = Some (List.filter (keeps EmptyString true) (load Sample.unordered)).
Proof.
  apply (projection_of_loaded_rows_is_the_filter [load Sample.unordered] 0%nat
           Sample.unordered EmptyString true).
  reflexivity.
Defined.

(** X18: projecting the result of a projection again, with the same
    search text and toggle, gives the same list. *)
Theorem projection_is_idempotent (records : list todo) (searchFilter : string)
    (showCompleted : bool) :
  filteredTodos_value (filteredTodos_value records searchFilter showCompleted)
    searchFilter showCompleted
  = filteredTodos_value records searchFilter showCompleted.
Proof.
  rewrite !filteredTodos_value_eq. unfold by_sortOrder.
  rewrite (filter_sort sortOrder), filter_idem.
  apply (OrderingFacts.sort_sorted_id sortOrder), (OrderingFacts.sort_sorted sortOrder).
Qed.

(** X19: the list shown with completed records hidden is the list shown
    with them included, less the completed ones, in the same order. *)
Theorem hiding_completed_filters_the_full_view (records : list todo)
    (searchFilter : string) :
  filteredTodos_value records searchFilter false
  = List.filter (fun t => negb (completed t))
      (filteredTodos_value records searchFilter true).
Proof.
  rewrite !filteredTodos_value_eq. unfold by_sortOrder.
  rewrite (filter_sort sortOrder), PageFacts.filter_filter. f_equal.
  apply filter_ext. intros t. unfold keeps. cbn [orb].
  destruct (completed t); cbn [negb andb]; [|now rewrite andb_true_r].
  now rewrite andb_false_r.
Qed.

Example full_and_pending_views :
  id <$> filteredTodos_value Sample.unordered EmptyString true = ["a"; "b"; "c"]
  /\ id <$> filteredTodos_value Sample.unordered EmptyString false = ["a"; "c"].
Proof. split; reflexivity. Qed.

End ProjectionFacts.

(* ===================================================================== *)
(** ** The exported document *)
(* ===================================================================== *)

Module PdfFacts.
Import Schema Pdf.

Section Document.
Variable Intl_format : JsNumber.number -> string.

(** X20: every text of the content carries one of the six styles the
    document definition declares. *)
Theorem content_uses_declared_styles (t : todo) (b : Block) (style : string) :
  b ∈ content Intl_format t -> style_of b = Some style -> style ∈ styles.
Proof.
  unfold content. rewrite !elem_of_app. intros Hb Hstyle.
  assert (forall l, b ∈ l -> Forall (fun b' => forall s, style_of b' = Some s -> s ∈ styles) l ->
                    style ∈ styles) as Huse.
  { intros l Hl Hall. rewrite Forall_forall in Hall. now apply (Hall b Hl). }
  assert (forall s, s ∈ styles <-> In s styles) as Hin by (intros; apply list_elem_of_In).
  destruct Hb as [Hb|[Hb|[Hb|[Hb|Hb]]]]; apply (Huse _ Hb); clear.
  - repeat first [apply Forall_nil_2 | apply Forall_cons_2]; intros sty; simpl; intros [= <-];
      destruct (completed t); apply list_elem_of_In; simpl; tauto.
  - destruct (present (description t)); repeat first [apply Forall_nil_2 | apply Forall_cons_2];
      intros sty; simpl; intros [= <-]; apply list_elem_of_In; simpl; tauto.
  - destruct (present (notes t)); repeat first [apply Forall_nil_2 | apply Forall_cons_2];
      intros sty; simpl; intros [= <-]; apply list_elem_of_In; simpl; tauto.
  - destruct (contractorHired t); [|constructor].
    destruct (present (contractorName t)), (present (contractorDetails t));
      repeat first [apply Forall_nil_2 | apply Forall_cons_2];
      intros sty; simpl; intros [= <-]; apply list_elem_of_In; simpl; tauto.
  - destruct (nonzero (cost t)); repeat first [apply Forall_nil_2 | apply Forall_cons_2];
      intros sty; simpl; intros [= <-]; apply list_elem_of_In; simpl; tauto.
Qed.

(** X21: for a record whose contractor flag is not set, the content says
    nothing of a contractor: it is the content of the same record without
    contractor name and details, so values left in those fields are not
    exported. *)
Theorem content_omits_contractor_when_not_hired (t : todo) :
  contractorHired t = false ->
  content Intl_format t = content Intl_format (without_contractor t).
Proof. intros Hflag. unfold content. cbn. now rewrite Hflag. Qed.

(** X22: the cost is printed exactly when the record holds a number other
    than zero.  A record without a cost, with a cost of zero of either sign
    or with NaN has no text in the cost style; any other cost ends the
    content with the heading "Total Cost" and, in the cost style, the
    formatted hundredth of the cost. *)
Theorem content_prints_nonzero_cost_last (t : todo) :
  (cost t = None \/ cost t = Some S754_nan
   \/ (exists sign, cost t = Some (S754_zero sign)) ->
   Forall (fun b => style_of b <> Some "cost") (content Intl_format t))
  /\ (forall c, cost t = Some c -> c <> S754_nan ->
        (forall sign, c <> S754_zero sign) ->
        exists front,
          content Intl_format t
          = (front ++ [Text "Total Cost" "subheader";
                       Text (Intl_format (div c (JsNumber.of_Z 100))) "cost"])%list).
Proof.
  unfold content. split.
  - intros Hcost.
    assert (nonzero (cost t) = None) as ->.
    { destruct Hcost as [->|[->|[sign ->]]]; reflexivity. }
    rewrite app_nil_r, !Forall_app. repeat split.
    + repeat first [apply Forall_nil_2 | apply Forall_cons_2]; simpl;
        destruct (completed t); discriminate.
    + destruct (present (description t));
        repeat first [apply Forall_nil_2 | apply Forall_cons_2]; discriminate.
    + destruct (present (notes t));
        repeat first [apply Forall_nil_2 | apply Forall_cons_2]; discriminate.
    + destruct (contractorHired t); [|constructor].
      destruct (present (contractorName t)), (present (contractorDetails t));
        repeat first [apply Forall_nil_2 | apply Forall_cons_2]; discriminate.
  - intros c Hc Hnan Hzero.
    assert (nonzero (cost t) = Some c) as ->.
    { rewrite Hc. destruct c as [sign| | |]; try reflexivity;
        [now contradiction (Hzero sign) | now contradiction Hnan]. }
    rewrite !app_assoc. eexists. reflexivity.
Qed.

End Document.

Lemma content_uses_declared_styles_witness :
  "cost" ∈ styles.
Proof.
  apply (content_uses_declared_styles (fun _ => "$25.00") Sample.detailed
           (Text "$25.00" "cost") "cost").
  - unfold content. simpl. repeat (first [apply list_elem_of_here | apply list_elem_of_further]).
  - reflexivity.
Defined.

Lemma content_omits_contractor_when_not_hired_witness :
  content (fun _ => "$0.00") left_over
  = content (fun _ => "$0.00") (without_contractor left_over).
Proof.
  apply (content_omits_contractor_when_not_hired (fun _ => "$0.00") left_over).
  reflexivity.
Defined.

Example content_of_left_over_record :
  content (fun _ => "$0.00") left_over
  = [ Text "Fence" "header"; Text "Status: Completed" "statusComplete"; Rule ].
Proof. reflexivity. Qed.

Example content_of_detailed_record :
  content (fun _ => "$25.00") Sample.detailed
  = [ Text "Tile floor" "header"; Text "Status: Pending" "statusPending"; Rule;
      Text "Description" "subheader"; Text "kitchen" "body";
      Text "Notes" "subheader"; Text "after plumbing" "body";
      Text "Contractor Information" "subheader";
      Text "Name: Ann" "body"; Text "Details: call first" "body";
      Text "Total Cost" "subheader"; Text "$25.00" "cost" ].
Proof. reflexivity. Qed.

End PdfFacts.
